(** * Authentication core of the contact-book backend

    A shallow embedding of the refresh-token store
    ([src/repositories/refresh_token_repo.py]), the user repository
    ([src/repositories/users_repo.py]), the expiry sweeper and the health
    check ([main.py]), the authentication routes ([src/routes/auth.py],
    [src/routes/users.py]) and the contact repository
    ([src/repositories/contacts_repo.py]), followed by the properties of the
    specification that concern them and by further properties of the code.

    Conventions.
    - A [datetime] is an integer number of microseconds since the epoch;
      [timedelta(days=d)] is [d * 86_400_000_000].
    - A table is the list of its rows in storage order; [.first()] takes the
      first row of a result set.
    - A clock reading ([datetime.now(...)]) is an explicit argument of the
      function that performs it.
    - A string is the UTF-8 encoding of a Python [str], byte by byte.
    - A coroutine that may raise returns a [result]; one that also writes to
      the database is a function from the database to a [result] and the
      database it leaves behind (a commit that happened before an exception
      stays). *)

From Stdlib Require Import ZArith List String Bool Lia.
From Stdlib Require Import Sorted Ascii.
Import ListNotations.

Open Scope string_scope.
Open Scope Z_scope.

(** ** Time *)

Definition datetime := Z.

Definition microseconds_per_day : Z := 86400000000.

Definition timedelta_days (d : Z) : Z := d * microseconds_per_day.

Definition timedelta_minutes (m : Z) : Z := m * 60000000.

(** ** Exceptions and results *)

Inductive exn : Type :=
| HTTPException (status_code : Z) (detail : string)
| AttributeError (message : string)
| MultipleResultsFound
| IntegrityError
(* a parameter the driver or the server refuses, a value a column cannot
   hold *)
| DBAPIError
(* typed errors of the authentication core *)
| Unauthorized
| InvalidToken
| WrongPurpose
| Expired.

Inductive result (A : Type) : Type :=
| Ok (a : A)
| Raise (e : exn).

Arguments Ok {A} a.
Arguments Raise {A} e.

(** ** Values the database accepts *)

(** An [Integer] column or parameter holds a 32-bit signed number. *)
Definition int32 (z : Z) : bool :=
  (-2147483648 <=? z) && (z <=? 2147483647).

(** Text with the character U+0000 is refused by the server. *)
Fixpoint has_nul (s : string) : bool :=
  match s with
  | EmptyString => false
  | String c rest => Ascii.eqb c "000"%char || has_nul rest
  end.

Definition no_nul (o : option string) : bool :=
  match o with
  | Some s => negb (has_nul s)
  | None => true
  end.

(** A byte [10xxxxxx], which continues a character begun before it. *)
Definition is_continuation (c : Ascii.ascii) : bool :=
  match c with
  | Ascii.Ascii _ _ _ _ _ _ b6 b7 => b7 && negb b6
  end.

(** The number of characters of a text. *)
Fixpoint char_length (s : string) : nat :=
  match s with
  | EmptyString => O
  | String c rest =>
      if is_continuation c then char_length rest else S (char_length rest)
  end.

(** The first [n] characters of a text, and what follows them. *)
Fixpoint take_chars (s : string) (n : nat) : string * string :=
  match s with
  | EmptyString => (EmptyString, EmptyString)
  | String c rest =>
      if is_continuation c
      then let '(kept, excess) := take_chars rest n in (String c kept, excess)
      else match n with
           | O => (EmptyString, s)
           | S n' => let '(kept, excess) := take_chars rest n' in (String c kept, excess)
           end
  end.

Fixpoint all_spaces (s : string) : bool :=
  match s with
  | EmptyString => true
  | String c rest => Ascii.eqb c " "%char && all_spaces rest
  end.

(** What a [String(n)] column stores when it is given a text: the text
    itself if it has at most [n] characters; its first [n] characters if
    all the characters beyond them are spaces; otherwise, and for a text
    with U+0000, the statement fails. *)
Definition varchar (n : nat) (s : string) : result string :=
  if has_nul s then Raise DBAPIError
  else if (char_length s <=? n)%nat then Ok s
  else
    let '(kept, excess) := take_chars s n in
    if all_spaces excess then Ok kept else Raise DBAPIError.

(** The same for a nullable column. *)
Definition varchar_null (n : nat) (o : option string) : result (option string) :=
  match o with
  | None => Ok None
  | Some s =>
      match varchar n s with
      | Ok kept => Ok (Some kept)
      | Raise e => Raise e
      end
  end.

(** ** Data model: [src/models/user_model.py] *)

Inductive UserRole : Type := USER | ADMIN.

Module User.
Record t : Type := mk {
  id : Z;
  username : string;
  email : string;
  hash_password : string;
  role : UserRole;
  avatar : option string;
  confirmed : bool
}.

Definition set_hash_password (h : string) (u : t) : t :=
  mk (id u) (username u) (email u) h (role u) (avatar u) (confirmed u).

Definition set_confirmed (b : bool) (u : t) : t :=
  mk (id u) (username u) (email u) (hash_password u) (role u) (avatar u) b.

Definition set_avatar (a : option string) (u : t) : t :=
  mk (id u) (username u) (email u) (hash_password u) (role u) a (confirmed u).
End User.

Module RefreshToken.
Record t : Type := mk {
  id : Z;
  user_id : Z;
  token_hash : string;
  created_at : datetime;
  expired_at : datetime;
  revoked_at : option datetime;
  ip_address : option string;
  user_agent : option string
}.

Definition set_revoked_at (v : option datetime) (r : t) : t :=
  mk (id r) (user_id r) (token_hash r) (created_at r) (expired_at r) v
     (ip_address r) (user_agent r).
End RefreshToken.

(** [x is None] on a nullable column. *)
Definition is_None {A : Type} (o : option A) : bool :=
  match o with
  | None => true
  | Some _ => false
  end.

(** The two tables the authentication core works on, and the sequence that
    numbers the rows of [refresh_tokens] (the last value it handed out). *)
Record Db : Type := mkDb {
  users : list User.t;
  refresh_tokens : list RefreshToken.t;
  refresh_tokens_id_seq : Z
}.

Definition set_users (us : list User.t) (db : Db) : Db :=
  mkDb us (refresh_tokens db) (refresh_tokens_id_seq db).

Definition set_refresh_tokens (ts : list RefreshToken.t) (db : Db) : Db :=
  mkDb (users db) ts (refresh_tokens_id_seq db).

Definition set_refresh_tokens_id_seq (v : Z) (db : Db) : Db :=
  mkDb (users db) (refresh_tokens db) v.

(** Schema constraints of [refresh_tokens]: [id] is the primary key and
    [token_hash] is declared [unique=True]. *)
Definition primary_key (tbl : list RefreshToken.t) : Prop :=
  NoDup (map RefreshToken.id tbl).

Definition unique_token_hash (tbl : list RefreshToken.t) : Prop :=
  NoDup (map RefreshToken.token_hash tbl).

Definition schema (tbl : list RefreshToken.t) : Prop :=
  primary_key tbl /\ unique_token_hash tbl.

(** Schema constraint of [users]: [email] is declared [unique=True]. *)
Definition unique_email (tbl : list User.t) : Prop :=
  NoDup (map User.email tbl).

(** Further schema constraints of [users]: [id] is the primary key and
    [username] is declared [unique=True]. *)
Definition users_primary_key (tbl : list User.t) : Prop :=
  NoDup (map User.id tbl).

Definition unique_username (tbl : list User.t) : Prop :=
  NoDup (map User.username tbl).

(** ** Result-set helpers of the ORM *)

(** [Result.scalars().first()] *)
Definition first {A : Type} (rows : list A) : option A :=
  match rows with
  | [] => None
  | r :: _ => Some r
  end.

(** [Result.scalar_one_or_none()] *)
Definition scalar_one_or_none {A : Type} (rows : list A) : result (option A) :=
  match rows with
  | [] => Ok None
  | [r] => Ok (Some r)
  | _ :: _ :: _ => Raise MultipleResultsFound
  end.

(** ** [RefreshTokenRepository]: [src/repositories/refresh_token_repo.py] *)

Module RefreshTokenRepository.
Import RefreshToken.

(** [select(...).where(RefreshToken.token_hash == token_hash)], [.first()] *)
Definition get_by_token_hash (token_hash' : string) (tbl : list t) : option t :=
  first (filter (fun r => String.eqb (token_hash r) token_hash') tbl).

(** The [where] clause of [get_active_token]. *)
Definition active_where (token_hash' : string) (current_time : datetime) (r : t) : bool :=
  String.eqb (token_hash r) token_hash'
  && (current_time <? expired_at r)
  && is_None (revoked_at r).

Definition get_active_token (token_hash' : string) (current_time : datetime)
           (tbl : list t) : option t :=
  first (filter (active_where token_hash' current_time) tbl).

(** The parameters of an insert that the driver and the server take:
    [user_id] is an [Integer], the texts are free of U+0000. *)
Definition sendable (row : t) : bool :=
  int32 (user_id row)
  && negb (has_nul (token_hash row))
  && no_nul (ip_address row)
  && no_nul (user_agent row).

(** The constraints of [refresh_tokens] in [user_model.py] that an insert
    of [row] under the key [new_id] can violate: [id] is the primary key,
    [token_hash] is [unique=True], [user_id] is a [ForeignKey("users.id")]. *)
Definition violates (new_id : Z) (row : t) (db : Db) : bool :=
  existsb (fun r => id r =? new_id) (refresh_tokens db)
  || existsb (fun r => String.eqb (token_hash r) (token_hash row)) (refresh_tokens db)
  || negb (existsb (fun u => User.id u =? user_id row) (users db)).

(** Modelled from the spec: [BaseRepository.create] ([base_repo.py] is not
    among the sources).  It inserts the row and returns it as stored:
    [refresh_tokens(id, user_id FK, token_hash UNIQUE, created_at,
    expired_at, revoked_at NULLABLE, ip_address, user_agent)].  Parameters
    that cannot be sent fail the statement before it runs.  Otherwise the
    database draws [id] from the sequence (a value that is drawn is not
    given back when the statement fails), fills [created_at] with its
    default ([func.now()], the reading [db_now]), fits [ip_address] into
    its [String(50)], and refuses the row if a constraint is violated. *)
Definition create (db_now : datetime) (row : t) (db : Db) : result t * Db :=
  if negb (sendable row) then (Raise DBAPIError, db)
  else
    let new_id := refresh_tokens_id_seq db + 1 in
    if negb (int32 new_id) then (Raise DBAPIError, db)
    else
      let db1 := set_refresh_tokens_id_seq new_id db in
      match varchar_null 50 (ip_address row) with
      | Raise e => (Raise e, db1)
      | Ok ip =>
          if violates new_id row db then (Raise IntegrityError, db1)
          else
            let stored :=
              mk new_id (user_id row) (token_hash row) db_now (expired_at row)
                 (revoked_at row) ip (user_agent row) in
            (Ok stored, set_refresh_tokens (refresh_tokens db ++ [stored])%list db1)
      end.

(** [RefreshToken(user_id=..., token_hash=..., expired_at=...,
    ip_address=..., user_agent=...)]: the columns that are not passed are
    left to the database ([id], [created_at]) or stay [None]
    ([revoked_at]). *)
Definition save_token (user_id' : Z) (token_hash' : string) (expired_at' : datetime)
           (ip_address' user_agent' : option string)
           (db_now : datetime) (db : Db) : result t * Db :=
  let refresh_token :=
    mk 0 user_id' token_hash' 0 expired_at' None ip_address' user_agent' in
  create db_now refresh_token db.

(** [refresh_token.revoked_at = datetime.now()] on the object. *)
Definition revoke_record (now : datetime) (refresh_token : t) : t :=
  set_revoked_at (Some now) refresh_token.

(** [revoke_token]: the assignment above followed by [commit()], which
    writes the changed object back to its row (the row with its primary
    key). *)
Definition revoke_token (refresh_token : t) (now : datetime) (tbl : list t) : list t :=
  map (fun r => if id r =? id refresh_token then revoke_record now r else r) tbl.
End RefreshTokenRepository.

(** ** Expiry sweeper: [cleanup_expired_tokens] in [main.py] *)

Module Sweeper.
Import RefreshToken.

(** The [WHERE] clause of the [DELETE]:
    [expired_at < :now OR revoked_at IS NOT NULL AND revoked_at < :cutoff]
    ([AND] binds tighter than [OR]; a comparison with [NULL] is not true). *)
Definition delete_where (now cutoff : datetime) (r : t) : bool :=
  (expired_at r <? now)
  || (negb (is_None (revoked_at r))
      && match revoked_at r with
         | Some t => t <? cutoff
         | None => false
         end).

Definition cleanup_expired_tokens (now : datetime) (tbl : list t) : list t :=
  let cutoff := now - timedelta_days 7 in
  filter (fun r => negb (delete_where now cutoff r)) tbl.

(** [scheduler.add_job(cleanup_expired_tokens, "interval", hours=1)] in
    [lifespan]: the job runs again and again; [runs] are the clock readings
    of the successive runs. *)
Definition scheduled_cleanups (runs : list datetime) (tbl : list t) : list t :=
  fold_left (fun rows now => cleanup_expired_tokens now rows) runs tbl.
End Sweeper.

(** ** [UserRepository]: [src/repositories/users_repo.py] *)

Module UserRepository.
Import User.

(** [select(...).where(self.model.email == email)], [scalar_one_or_none()] *)
Definition get_user_by_email (email' : string) (tbl : list t) : result (option t) :=
  scalar_one_or_none (filter (fun u => String.eqb (email u) email') tbl).

(** [user.hash_password = new_hashed_password], [commit()], [return user] *)
Definition update_password (user : t) (new_hashed_password : string)
           (tbl : list t) : t * list t :=
  (set_hash_password new_hashed_password user,
   map (fun u => if id u =? id user
                 then set_hash_password new_hashed_password u else u) tbl).

(** [select(...).where(self.model.username == username)],
    [scalar_one_or_none()]; a name with U+0000 cannot be sent as a
    parameter of the query. *)
Definition get_by_username (username' : string) (tbl : list t) : result (option t) :=
  if has_nul username' then Raise DBAPIError
  else scalar_one_or_none (filter (fun u => String.eqb (username u) username') tbl).

(** An assignment [user.<name> = value] where [user] is [None].  The
    interpreter raises [AttributeError]; the text of the message depends on
    its version, this is the wording up to CPython 3.10. *)
Definition setattr_on_None (name : string) : exn :=
  AttributeError ("'NoneType' object has no attribute '" ++ name ++ "'")%string.

(** [user = await self.get_user_by_email(email)], [user.confirmed = True],
    [commit()] *)
Definition confirmed_email (email' : string) (tbl : list t) : result unit * list t :=
  match get_user_by_email email' tbl with
  | Raise e => (Raise e, tbl)
  | Ok None => (Raise (setattr_on_None "confirmed"), tbl)
  | Ok (Some user) =>
      (Ok tt, map (fun u => if id u =? id user then set_confirmed true u else u) tbl)
  end.

(** [user = await self.get_user_by_email(email)], [user.avatar = url],
    [commit()], [refresh(user)], [return user].  An address with U+0000
    cannot be sent as the parameter of the lookup.  The column is
    [String(255)]: the commit fails for a URL it cannot hold and then
    leaves the row as it was; the user returned is the row as stored. *)
Definition update_avatar_url (email' url : string) (tbl : list t) : result t * list t :=
  if has_nul email' then (Raise DBAPIError, tbl)
  else
    match get_user_by_email email' tbl with
    | Raise e => (Raise e, tbl)
    | Ok None => (Raise (setattr_on_None "avatar"), tbl)
    | Ok (Some user) =>
        match varchar 255 url with
        | Raise e => (Raise e, tbl)
        | Ok stored =>
            (Ok (set_avatar (Some stored) user),
             map (fun u => if id u =? id user then set_avatar (Some stored) u else u) tbl)
        end
    end.
End UserRepository.

(** The rows of [users] after an attribute of the object [user] was assigned
    ([f] is the assignment) and committed: the row with the object's primary
    key carries the change. *)
Definition assign (f : User.t -> User.t) (user : User.t) (tbl : list User.t)
  : list User.t :=
  map (fun u => if User.id u =? User.id user then f u else u) tbl.

(** ** Configuration: [src/conf/config.py] (the fields the core reads) *)

Record Settings : Type := mkSettings {
  ACCESS_TOKEN_EXPIRE_MINUTES : Z;
  REFRESH_TOKEN_EXPIRE_DAYS : Z;
  ALGORITHM : string;
  SECRET_KEY : string
}.

(** The one-way functions of the core, which the sources use but do not
    define.  [hash_token] is the hash under which a refresh secret is stored
    ("keyed by a hash of the token secret"); [_hash_password] is the
    credential hasher, whose "per-call random salt" is its first argument. *)
Class Hasher : Type := {
  hash_token : string -> string;
  _hash_password : string -> string -> string
}.

(** ** Token codec *)

Module TokenCodec.
(** Modelled from the spec: the claims of a signed token, "subject ...,
    expiry, issued-at, token-id/jti" and, for action tokens, the "purpose
    tag". *)
Record claims : Type := mkClaims {
  sub : string;
  purpose : string;
  iat : datetime;
  exp : datetime;
  jti : string
}.

(** Modelled from the spec: a token is a "signed, stateless claim bundle";
    a token string is either not a token at all or a claim bundle together
    with the key it was signed with. *)
Inductive token : Type :=
| Garbage (raw : string)
| Signed (key : string) (c : claims).

(** Modelled from the spec: the Token Codec ([src/services/auth.py] is not
    among the sources).  "validity requires (a) signature matches the
    process-wide secret key, (b) expiry not passed"; a token that does not
    decode is an [InvalidToken], one past its expiry is [Expired]. *)
Definition decode (secret_key : string) (now : datetime) (tok : token) : result claims :=
  match tok with
  | Garbage _ => Raise InvalidToken
  | Signed key c =>
      if negb (String.eqb key secret_key) then Raise InvalidToken
      else if exp c <=? now then Raise Expired
      else Ok c
  end.

(** Modelled from the spec: [issue_action(subject_email, purpose, ttl)], a
    "stateless signed claim bundle carrying subject=email, purpose tag, and
    short expiry; not persisted". *)
Definition issue_action (secret_key : string) (now : datetime)
           (subject_email purpose' : string) (ttl : Z) : token :=
  Signed secret_key (mkClaims subject_email purpose' now (now + ttl) "").

(** Modelled from the spec: [decode_action(token_string, expected_purpose)
    -> subject_email], which "fails with [WrongPurpose] if the purpose tag
    mismatches". *)
Definition decode_action (secret_key : string) (now : datetime) (tok : token)
           (expected_purpose : string) : result string :=
  match decode secret_key now tok with
  | Raise e => Raise e
  | Ok c =>
      if String.eqb (purpose c) expected_purpose then Ok (sub c)
      else Raise WrongPurpose
  end.
End TokenCodec.

(** ** Revocation ledger *)

Module RevocationLedger.
(** Modelled from the spec: "a set of jti values considered invalid even
    though the signature is still valid", with each entry's expiry. *)
Definition t : Type := list (string * datetime).

(** Modelled from the spec: [is_revoked(jti) -> bool]. *)
Definition is_revoked (ledger : t) (jti : string) : bool :=
  existsb (fun e => String.eqb (fst e) jti) ledger.
End RevocationLedger.

(** ** Effects of a request handler *)

(** A handler that reads and writes the database and may raise. *)
Definition M (A : Type) : Type := Db -> result A * Db.

Definition ret {A : Type} (a : A) : M A := fun db => (Ok a, db).

Definition raise {A : Type} (e : exn) : M A := fun db => (Raise e, db).

Definition bind {A B : Type} (m : M A) (k : A -> M B) : M B :=
  fun db =>
    match m db with
    | (Ok a, db') => k a db'
    | (Raise e, db') => (Raise e, db')
    end.

Definition lift {A : Type} (r : result A) : M A := fun db => (r, db).

Declare Scope handler_scope.
Delimit Scope handler_scope with handler.

Notation "x <- m ;; k" := (bind m (fun x => k))
  (at level 100, m at next level, right associativity) : handler_scope.
Notation "m ;;; k" := (bind m (fun _ => k))
  (at level 100, right associativity) : handler_scope.

(** What a handler sees of the HTTP request. *)
Record Request : Type := mkRequest {
  client_host : string;
  header_user_agent : option string;
  base_url : string
}.

(** The link put into an e-mail: the bare host, or
    [f"{request.base_url}api/auth/reset-password?token={token}"]. *)
Inductive link : Type :=
| Host (base : string)
| ResetLink (base : string) (token : TokenCodec.token).

(** [background_tasks.add_task(send_email, email, username, host)] *)
Inductive BackgroundTask : Type :=
| send_email (email username : string) (host : link).

Record TokenResponse : Type := mkTokenResponse {
  access_token : TokenCodec.token;
  token_type : string;
  refresh_token : string
}.

(** The readings a request takes from outside the database: the UTC clock,
    the local clock read by [revoke_token], and the fresh random values. *)
Record Ambient : Type := mkAmbient {
  utc_now : datetime;
  local_now : datetime;
  fresh_jti : string;
  fresh_secret : string;
  fresh_salt : string
}.

(** ** [AuthService] *)

Module AuthService.
Import TokenCodec.

Section Service.
Context (settings : Settings) {hasher : Hasher}.

(** Lifetime of a password-reset token, a constant of the absent
    service. *)
Variable reset_token_ttl : Z.

(** Modelled from the spec: [create_access_token] of [AuthService]
    ([src/services/auth.py] is not among the sources):
    [issue_access(subject, role?, ttl)] "encodes subject, unique jti,
    issued-at, expiry; signs with process secret". *)
Definition create_access_token (now : datetime) (jti' : string)
           (username : string) : token :=
  Signed (SECRET_KEY settings)
         (mkClaims username "access" now
                   (now + timedelta_minutes (ACCESS_TOKEN_EXPIRE_MINUTES settings))
                   jti').

(** Modelled from the spec: validity of an access token, "(a) signature
    matches the process-wide secret key, (b) expiry not passed, (c) for
    access tokens, jti not present in the Revocation Ledger". *)
Definition access_token_valid (ledger : RevocationLedger.t) (now : datetime)
           (tok : token) : result string :=
  match decode (SECRET_KEY settings) now tok with
  | Raise _ => Raise Unauthorized
  | Ok c =>
      if String.eqb (purpose c) "access"
         && negb (RevocationLedger.is_revoked ledger (jti c))
      then Ok (sub c) else Raise Unauthorized
  end.

(** Modelled from the spec: [create_refresh_token] of [AuthService]:
    a fresh secret is drawn, "the store ... persists only the hash of
    [secret]" with expiry [now + ttl] and the client metadata, and the
    raw secret goes back to the caller. *)
Definition create_refresh_token (user_id : Z) (ip_address user_agent : option string)
           (now : datetime) (secret : string) : M string :=
  fun db =>
    let expired_at := now + timedelta_days (REFRESH_TOKEN_EXPIRE_DAYS settings) in
    match RefreshTokenRepository.save_token
            user_id (hash_token secret) expired_at ip_address user_agent
            now db with
    | (Ok _, db') => (Ok secret, db')
    | (Raise e, db') => (Raise e, db')
    end.

(** Modelled from the spec: the rows reuse detection revokes, "all other
    active refresh rows for that user", active meaning
    "[revoked_at IS NULL AND expired_at > now]". *)
Definition other_active (row : RefreshToken.t) (now : datetime)
           (r : RefreshToken.t) : bool :=
  (RefreshToken.user_id r =? RefreshToken.user_id row)
  && negb (RefreshToken.id r =? RefreshToken.id row)
  && (now <? RefreshToken.expired_at r)
  && is_None (RefreshToken.revoked_at r).

(** Modelled from the spec: "revoke all other active refresh rows for that
    user", each through the store's [revoke_token]. *)
Definition revoke_other_active (row : RefreshToken.t) (now local : datetime)
           (tbl : list RefreshToken.t) : list RefreshToken.t :=
  fold_left (fun t r => RefreshTokenRepository.revoke_token r local t)
            (filter (other_active row now) tbl) tbl.

(** Modelled from the spec: the user a refresh row belongs to
    ("[refresh_tokens(id, user_id FK, ...)]", a foreign key to [users.id]). *)
Definition get_by_id (user_id : Z) (tbl : list User.t) : option User.t :=
  first (filter (fun u => User.id u =? user_id) tbl).

(** Modelled from the spec: [validate_refresh_token] of [AuthService]:
    "presented refresh secret resolves to an active row", else
    "[Unauthorized] if not found/expired/revoked — on a revoked-row
    presentation, treat as possible theft: revoke all other active
    refresh rows for that user". *)
Definition validate_refresh_token (refresh_token : string)
           (now local : datetime) : M User.t :=
  fun db =>
    let token_hash := hash_token refresh_token in
    match RefreshTokenRepository.get_active_token token_hash now (refresh_tokens db) with
    | Some row =>
        match get_by_id (RefreshToken.user_id row) (users db) with
        | Some user => (Ok user, db)
        | None => (Raise Unauthorized, db)
        end
    | None =>
        match RefreshTokenRepository.get_by_token_hash token_hash (refresh_tokens db) with
        | Some row =>
            if is_None (RefreshToken.revoked_at row)
            then (Raise Unauthorized, db)
            else (Raise Unauthorized,
                  set_refresh_tokens
                    (revoke_other_active row now local (refresh_tokens db)) db)
        | None => (Raise Unauthorized, db)
        end
    end.

(** Modelled from the spec: [revoke_refresh_token] of [AuthService]:
    "revoke refresh row ... missing refresh row is not an error"; the
    row is found by the hash of the secret and handed to the store's
    [revoke_token]. *)
Definition revoke_refresh_token (refresh_token : string) (local : datetime) : M unit :=
  fun db =>
    match RefreshTokenRepository.get_by_token_hash
            (hash_token refresh_token) (refresh_tokens db) with
    | Some row =>
        (Ok tt, set_refresh_tokens
                  (RefreshTokenRepository.revoke_token row local (refresh_tokens db)) db)
    | None => (Ok tt, db)
    end.

(** Modelled from the spec: [create_reset_token] of [AuthService]:
    "issue action token (purpose=reset)". *)
Definition create_reset_token (email : string) (now : datetime) : token :=
  issue_action (SECRET_KEY settings) now email "reset" reset_token_ttl.

(** Modelled from the spec: [decode_reset_token] of [AuthService]:
    "action token valid, purpose=reset", failing with
    "[InvalidToken] / [WrongPurpose] / [Expired]". *)
Definition decode_reset_token (tok : token) (now : datetime) : result string :=
  decode_action (SECRET_KEY settings) now tok "reset".
End Service.
End AuthService.

(** ** Routes of [src/routes/auth.py] *)

Module routes_auth.
Import AuthService.
Local Open Scope handler_scope.

Section Routes.
Context (settings : Settings) {hasher : Hasher}.
Variable reset_token_ttl : Z.

(** [request.client.host if request else None] *)
Definition ip_of (request : option Request) : option string :=
  match request with
  | Some rq => Some (client_host rq)
  | None => None
  end.

(** [request.headers.get("user-agent") if request else None] *)
Definition user_agent_of (request : option Request) : option string :=
  match request with
  | Some rq => header_user_agent rq
  | None => None
  end.

Definition refresh (refresh_token : string) (request : option Request)
           (env : Ambient) : M TokenResponse :=
  user <- validate_refresh_token refresh_token (utc_now env) (local_now env) ;;
  let new_access_token :=
    create_access_token settings (utc_now env) (fresh_jti env) (User.username user) in
  new_refresh_token <-
    create_refresh_token settings (User.id user) (ip_of request) (user_agent_of request)
                         (utc_now env) (fresh_secret env) ;;
  (revoke_refresh_token refresh_token (local_now env) ;;;
   ret (mkTokenResponse new_access_token "bearer" new_refresh_token)).

Definition request_password_reset (body_email : string) (request : Request)
           (env : Ambient) (db : Db) : result (string * list BackgroundTask) :=
  match UserRepository.get_user_by_email body_email (users db) with
  | Raise e => Raise e
  | Ok None => Raise (HTTPException 404 "User not found")
  | Ok (Some user) =>
      let token := create_reset_token settings reset_token_ttl
                                      (User.email user) (utc_now env) in
      let reset_link := ResetLink (base_url request) token in
      Ok ("Password reset instructions sent to your email",
          [send_email (User.email user) (User.username user) reset_link])
  end.

Definition reset_password (data_token : TokenCodec.token) (data_new_password : string)
           (env : Ambient) : M string :=
  email <- lift (decode_reset_token settings data_token (utc_now env)) ;;
  user <- (fun db => (UserRepository.get_user_by_email email (users db), db)) ;;
  match user with
  | None => raise (HTTPException 404 "User not found")
  | Some user =>
      let new_hashed := _hash_password (fresh_salt env) data_new_password in
      (fun db =>
         let '(_, tbl) := UserRepository.update_password user new_hashed (users db) in
         (Ok "Password has been successfully reset", set_users tbl db))
  end.
End Routes.
End routes_auth.

(** ** Routes of [src/routes/users.py] *)

Module routes_users.
(** The [user_service] dependency of the route, as far as the route uses
    it. *)
Record UserService : Type := mkUserService {
  get_user_by_email : string -> result (option User.t)
}.

(** Attribute access on a value that may be [None]. *)
Definition getattr {A : Type} (name : string) (field : User.t -> A)
           (obj : option User.t) : result A :=
  match obj with
  | Some u => Ok (field u)
  | None =>
      Raise (AttributeError
               ("'NoneType' object has no attribute '" ++ name ++ "'")%string)
  end.

Definition request_email (body_email : string) (request : Request)
           (user_service : UserService) : result (string * list BackgroundTask) :=
  match get_user_by_email user_service body_email with
  | Raise e => Raise e
  | Ok user =>
      match getattr "confirmed" User.confirmed user with
      | Raise e => Raise e
      | Ok true => Ok ("Your email already confirmed", [])
      | Ok false =>
          match user with
          | Some u =>
              Ok ("Check your email",
                  [send_email (User.email u) (User.username u) (Host (base_url request))])
          | None => Ok ("Check your email", [])
          end
      end
  end.

(** Modelled from the spec: [UserService.get_user_by_email]
    ([src/services/user.py] is not among the sources), the e-mail lookup of
    the persistence layer for a request served over the database [db]; its
    callers expect [None] for an unknown address (the sibling route
    [confirmed_email] tests [user is None]). *)
Definition user_service_over (db : Db) : UserService :=
  mkUserService (fun e => UserRepository.get_user_by_email e (users db)).

(** Modelled from the spec: [UserService.confirmed_email]
    ([src/services/user.py] is not among the sources), which for
    confirm-email is to "set confirmed=true": it hands the address to the
    repository's [confirmed_email]. *)
Definition user_service_confirmed_email (email : string) : M unit :=
  fun db =>
    let '(r, tbl) := UserRepository.confirmed_email email (users db) in
    (r, set_users tbl db).

(** The route [confirmed_email].  [get_email_from_token]
    ([src/utils/email_token.py]) is not among the sources and is an argument
    here: it yields the address a token was issued for, or raises. *)
Definition confirmed_email (get_email_from_token : TokenCodec.token -> result string)
           (token : TokenCodec.token) : M string :=
  (email <- lift (get_email_from_token token) ;;
   user <- (fun db => (get_user_by_email (user_service_over db) email, db)) ;;
   match user with
   | None => raise (HTTPException 400 "Verification error")
   | Some u =>
       if User.confirmed u then ret "Your email already confirmed"
       else (user_service_confirmed_email email ;;;
             ret "Your email successfully confirmed")
   end)%handler.
End routes_users.

(** ** Health check: [healthchecker] in [main.py] *)

Module main.
(** [select_1] is what [db.execute(text("SELECT 1"))] and [fetchone()]
    yield: a row, no row, or an exception.  The answer comes with the list
    of exceptions the handler prints.  [HTTPException] is an [Exception], so
    the one raised inside the [try] block is caught by the handler's own
    [except Exception]. *)
Definition healthchecker (select_1 : result (option Z)) : result string * list exn :=
  let attempt :=
    match select_1 with
    | Raise e => Raise e
    | Ok None => Raise (HTTPException 500 "Database is not configured correctly")
    | Ok (Some _) => Ok "Welcome to FastAPI!"
    end in
  match attempt with
  | Ok message => (Ok message, [])
  | Raise e => (Raise (HTTPException 500 "Error connecting to the database"), [e])
  end.
End main.

(** ** Contacts: [src/models/contact_model.py],
       [src/repositories/contacts_repo.py] *)

(** A calendar date ([datetime.date], and the date part of
    [datetime.now()]). *)
Record date : Type := mkDate {
  year : Z;
  month : Z;
  day : Z
}.

Definition is_leap (y : Z) : bool :=
  (y mod 4 =? 0) && (negb (y mod 100 =? 0) || (y mod 400 =? 0)).

Definition days_in_month (y m : Z) : Z :=
  if m =? 2 then (if is_leap y then 29 else 28)
  else if (m =? 4) || (m =? 6) || (m =? 9) || (m =? 11) then 30
  else 31.

(** A date of the calendar, in a year for which the date a week later
    exists as well. *)
Definition valid_date (d : date) : Prop :=
  1 <= year d < 9999 /\ 1 <= month d <= 12
  /\ 1 <= day d <= days_in_month (year d) (month d).

(** [today + timedelta(days=7)], on the date part. *)
Definition plus_7_days (d : date) : date :=
  let last := days_in_month (year d) (month d) in
  if day d + 7 <=? last then mkDate (year d) (month d) (day d + 7)
  else if month d =? 12 then mkDate (year d + 1) 1 (day d + 7 - last)
  else mkDate (year d) (month d + 1) (day d + 7 - last).

(** The order of dates, as [ORDER BY birth_date] compares them. *)
Definition date_leb (a b : date) : bool :=
  (year a <? year b)
  || ((year a =? year b)
      && ((month a <? month b) || ((month a =? month b) && (day a <=? day b)))).

Module Contact.
Record t : Type := mk {
  id : Z;
  first_name : string;
  last_name : string;
  email : option string;
  phone : string;
  birth_date : option date;
  additionally : option string;
  created_at : option datetime;
  updated_at : option datetime;
  user_id : option Z
}.
End Contact.

(** Schema constraint of [contacts]: [id] is the primary key. *)
Definition contacts_primary_key (tbl : list Contact.t) : Prop :=
  NoDup (map Contact.id tbl).

Module ContactRepository.
Import Contact.

(** [Contact_model.user_id == user.id] on a nullable column: a [NULL] owner
    matches nobody. *)
Definition owned_by (user : User.t) (c : t) : bool :=
  match user_id c with
  | Some uid => uid =? User.id user
  | None => false
  end.

(** [if first_name:] and the like: the filter is added for a non-empty
    string only. *)
Definition given (needle : option string) : bool :=
  match needle with
  | Some (String _ _) => true
  | _ => false
  end.

Section Queries.
(** [column.ilike(pattern)] of the database, on a value that is not
    [NULL]. *)
Variable ilike : string -> string -> bool.

(** [Contact_model.<column>.ilike(f"%{needle}%")], when the filter is
    added; a [NULL] column matches no pattern. *)
Definition ilike_filter (column : t -> option string) (needle : option string)
           (c : t) : bool :=
  match needle with
  | Some (String a rest) =>
      match column c with
      | Some v => ilike v ("%" ++ String a rest ++ "%")%string
      | None => false
      end
  | _ => true
  end.

(** [select(Contact_model).filter(and_( *filters)).offset(offset).limit(limit)];
    [limit] and [offset] are the non-negative numbers the database
    accepts. *)
Definition get_contacts (user : User.t) (limit offset : nat)
           (first_name' last_name' email' : option string) (tbl : list t) : list t :=
  firstn limit
    (skipn offset
       (filter (fun c =>
                  ilike_filter (fun c => Some (first_name c)) first_name' c
                  && ilike_filter (fun c => Some (last_name c)) last_name' c
                  && ilike_filter email email' c
                  && owned_by user c) tbl)).
End Queries.

(** The [filter] of the birthday query:
    [extract('month', birth_date) == current_month],
    [extract('day', birth_date) >= current_day],
    [extract('day', birth_date) <= upcoming_birthday_end.day],
    [user_id == user.id]; a [NULL] birth date satisfies none of the
    comparisons. *)
Definition birthday_where (user : User.t) (today : date) (c : t) : bool :=
  match birth_date c with
  | Some b =>
      (month b =? month today)
      && (day today <=? day b)
      && (day b <=? day (plus_7_days today))
      && owned_by user c
  | None => false
  end.

(** [ORDER BY birth_date]: ascending by date, a [NULL] date after every
    date; as an insertion sort, which keeps rows of equal date in storage
    order. *)
Definition birth_leb (a b : t) : bool :=
  match birth_date a, birth_date b with
  | Some x, Some y => date_leb x y
  | _, None => true
  | None, Some _ => false
  end.

Definition born_no_later (a b : t) : Prop := birth_leb a b = true.

Fixpoint insert_by_birth_date (c : t) (sorted : list t) : list t :=
  match sorted with
  | [] => [c]
  | x :: rest =>
      if birth_leb c x then c :: x :: rest
      else x :: insert_by_birth_date c rest
  end.

Definition order_by_birth_date (rows : list t) : list t :=
  fold_right insert_by_birth_date [] rows.

Definition get_contacts_by_upcoming_birthdays (user : User.t) (limit offset : nat)
           (today : date) (tbl : list t) : list t :=
  firstn limit
    (skipn offset (order_by_birth_date (filter (birthday_where user today) tbl))).

(** [select(Contact_model).filter_by(id=contact_id, user_id=user.id)],
    [scalar_one_or_none()]; both parameters are compared with [Integer]
    columns, and a number outside the 32-bit range cannot be sent. *)
Definition get_contact_by_id (contact_id : Z) (user : User.t) (tbl : list t)
  : result (option t) :=
  if negb (int32 contact_id && int32 (User.id user)) then Raise DBAPIError
  else
    scalar_one_or_none
      (filter (fun c => (id c =? contact_id) && owned_by user c) tbl).

(** [contact = await self.get_contact_by_id(...)]; [if contact:]
    [delete(contact)], [commit()]; [return contact].  The row deleted is the
    one with the contact's primary key. *)
Definition remove_contact (contact_id : Z) (user : User.t) (tbl : list t)
  : result (option t) * list t :=
  match get_contact_by_id contact_id user tbl with
  | Raise e => (Raise e, tbl)
  | Ok None => (Ok None, tbl)
  | Ok (Some contact) =>
      (Ok (Some contact), filter (fun c => negb (id c =? id contact)) tbl)
  end.
End ContactRepository.

(** ** Concrete data used by the examples below *)

Module Scenario.
Definition day : Z := microseconds_per_day.

Definition hour : Z := 3600000000.

(** A clock reading: 2026-01-01T00:00:00Z. *)
Definition t0 : datetime := 1767225600000000.

Definition settings : Settings := mkSettings 15 7 "HS256" "process-secret".

Definition hasher : Hasher :=
  Build_Hasher (fun s => ("sha256:" ++ s)%string)
               (fun salt p => ("bcrypt:" ++ salt ++ ":" ++ p)%string).

Definition alice : User.t :=
  User.mk 1 "alice" "alice@x.com" "bcrypt:s0:Secret123" USER None true.

Definition request : Request := mkRequest "10.0.0.7" (Some "curl/8") "http://host/".

Definition token_row (id user_id : Z) (secret : string)
           (expired_at : datetime) (revoked_at : option datetime) : RefreshToken.t :=
  RefreshToken.mk id user_id (@hash_token hasher secret) (t0 - day) expired_at
                  revoked_at None None.

(** Alice with one refresh token issued a day ago, good for six more. *)
Definition db_login : Db :=
  mkDb [alice] [token_row 1 1 "r1" (t0 + 6 * day) None] 1.

(** Alice with a token revoked an hour ago and a second, active one. *)
Definition db_stolen : Db :=
  mkDb [alice]
       [token_row 1 1 "r1" (t0 + 6 * day) (Some (t0 - hour));
        token_row 2 1 "r2" (t0 + 6 * day) None] 2.

Definition env (now : datetime) (secret : string) : Ambient :=
  mkAmbient now now "jti-1" secret "s1".

(** The sweeper scenario: one row expired 8 days ago, one revoked 8 days
    ago, one still active. *)
Definition expired_8d : RefreshToken.t := token_row 1 1 "a" (t0 - 8 * day) None.
Definition revoked_8d : RefreshToken.t :=
  token_row 2 1 "b" (t0 + day) (Some (t0 - 8 * day)).
Definition still_active : RefreshToken.t := token_row 3 1 "c" (t0 + day) None.

(** A row that expired an hour ago and was never revoked. *)
Definition expired_1h : RefreshToken.t := token_row 4 1 "d" (t0 - hour) None.

(** A row revoked two days ago. *)
Definition revoked_2d : RefreshToken.t :=
  token_row 5 1 "e" (t0 + day) (Some (t0 - 2 * day)).
End Scenario.

(** Further data: a second user and a small address book. *)
Module Samples.
Definition bob : User.t :=
  User.mk 2 "bob" "bob@x.com" "bcrypt:s0:Passw0rd" USER None false.

Definition users_ab : list User.t := [Scenario.alice; bob].

Definition db_ab : Db := mkDb users_ab (refresh_tokens Scenario.db_stolen) 2.

Definition contact (id : Z) (first_name : string) (birth : option date)
           (owner : option Z) : Contact.t :=
  Contact.mk id first_name "Doe" None ("+1555000" ++ first_name)%string birth None
             None None owner.

(** Alice's contacts Ann (born 28 January 1990), Abe (born 2 February
    1985) and Ada (born 30 January 1970), and Bob's contact Bea (born
    29 January 1980). *)
Definition ann : Contact.t := contact 1 "Ann" (Some (mkDate 1990 1 28)) (Some 1).
Definition abe : Contact.t := contact 2 "Abe" (Some (mkDate 1985 2 2)) (Some 1).
Definition ada : Contact.t := contact 3 "Ada" (Some (mkDate 1970 1 30)) (Some 1).
Definition bea : Contact.t := contact 4 "Bea" (Some (mkDate 1980 1 29)) (Some 2).

Definition book : list Contact.t := [ann; abe; ada; bea].

(** A URL of 265 characters. *)
Definition long_url : string :=
  ("http://cdn/" ++ String.concat "" (repeat "0123456789" 25) ++ ".png")%string.

(** Two days of January 2026: the 24th, a week before the end of the
    month, and the 28th. *)
Definition jan_24 : date := mkDate 2026 1 24.
Definition jan_28 : date := mkDate 2026 1 28.

(** A stand-in for the database's [ILIKE]: the pattern, stripped of its
    two [%] signs, is a prefix of the value. *)
Definition prefix_ilike (value pattern : string) : bool :=
  String.prefix (String.substring 1 (String.length pattern - 2) pattern) value.
End Samples.

(** * Properties *)

(** ** Result sets *)

Section ResultSets.
Context {A : Type}.
Implicit Types (p q : A -> bool) (l : list A).

Lemma first_filter_Some p l r :
  first (filter p l) = Some r -> In r l /\ p r = true.
Proof.
  induction l as [|x l IH]; simpl; [discriminate|].
  destruct (p x) eqn:Hx; simpl.
  - intros [= <-]. auto.
  - intros H. destruct (IH H). auto.
Qed.

Lemma first_filter_None p l :
  first (filter p l) = None <-> (forall r, In r l -> p r = false).
Proof.
  induction l as [|x l IH]; simpl.
  - split; [intros _ r []|reflexivity].
  - destruct (p x) eqn:Hx; simpl.
    + split; [discriminate|]. intros H. specialize (H x (or_introl eq_refl)). congruence.
    + rewrite IH. split.
      * intros H r [<-|Hr]; auto.
      * intros H r Hr. apply H. auto.
Qed.

Lemma filter_andb p q l :
  filter (fun x => p x && q x) l = filter q (filter p l).
Proof.
  induction l as [|x l IH]; simpl; [reflexivity|].
  destruct (p x); simpl; [|exact IH].
  destruct (q x); simpl; congruence.
Qed.

Lemma filter_none p l :
  (forall r, In r l -> p r = false) -> filter p l = [].
Proof.
  induction l as [|x l IH]; simpl; intros H; [reflexivity|].
  rewrite (H x (or_introl eq_refl)). apply IH. intros r Hr. apply H. auto.
Qed.

Lemma filter_map_preserved (f : A -> A) p l :
  (forall x, p (f x) = p x) -> filter p (map f l) = map f (filter p l).
Proof.
  intros Hf. induction l as [|x l IH]; simpl; [reflexivity|].
  rewrite Hf. destruct (p x); simpl; congruence.
Qed.

(** On a column declared unique, an equality test selects one row. *)
Lemma filter_unique_key (key : A -> string) l r :
  NoDup (map key l) -> In r l ->
  filter (fun x => String.eqb (key x) (key r)) l = [r].
Proof.
  induction l as [|x l IH]; simpl; intros Hnd Hin; [contradiction|].
  inversion Hnd as [|? ? Hnotin Hnd']; subst.
  destruct Hin as [->|Hin].
  - rewrite String.eqb_refl. f_equal. apply filter_none.
    intros y Hy. apply String.eqb_neq. intros Heq. apply Hnotin.
    rewrite <- Heq. apply in_map. exact Hy.
  - destruct (String.eqb (key x) (key r)) eqn:Hx.
    + apply String.eqb_eq in Hx. exfalso. apply Hnotin. rewrite Hx.
      apply in_map. exact Hin.
    + apply IH; assumption.
Qed.
End ResultSets.

(** ** The refresh-token store *)

Section Store.
Import RefreshToken RefreshTokenRepository.
Implicit Types (tbl : list RefreshToken.t) (r row : RefreshToken.t).

Lemma active_where_true h now r :
  active_where h now r = true <->
  token_hash r = h /\ now < expired_at r /\ revoked_at r = None.
Proof.
  unfold active_where. rewrite !andb_true_iff, String.eqb_eq, Z.ltb_lt.
  destruct (revoked_at r); simpl; intuition congruence.
Qed.

Lemma active_where_false h now r :
  token_hash r = h ->
  active_where h now r = false <-> expired_at r <= now \/ revoked_at r <> None.
Proof.
  intros <-. unfold active_where. rewrite String.eqb_refl. simpl.
  rewrite andb_false_iff, Z.ltb_ge.
  destruct (revoked_at r); simpl; intuition congruence.
Qed.

Lemma active_where_other_hash h now r :
  token_hash r <> h -> active_where h now r = false.
Proof.
  intros Hne. unfold active_where.
  apply String.eqb_neq in Hne. rewrite Hne. reflexivity.
Qed.

Lemma get_active_token_filter h now tbl :
  get_active_token h now tbl =
  first (filter (fun r => (now <? expired_at r) && is_None (revoked_at r))
                (filter (fun r => String.eqb (token_hash r) h) tbl)).
Proof.
  unfold get_active_token. rewrite <- filter_andb. f_equal.
  apply filter_ext. intros r. unfold active_where. symmetry. apply andb_assoc.
Qed.

Lemma get_by_token_hash_unique tbl r :
  unique_token_hash tbl -> In r tbl ->
  get_by_token_hash (token_hash r) tbl = Some r.
Proof.
  intros Hu Hin. unfold get_by_token_hash.
  rewrite (filter_unique_key token_hash tbl r Hu Hin). reflexivity.
Qed.

Lemma get_active_token_unique tbl r now :
  unique_token_hash tbl -> In r tbl ->
  get_active_token (token_hash r) now tbl =
  if (now <? expired_at r) && is_None (revoked_at r) then Some r else None.
Proof.
  intros Hu Hin. rewrite get_active_token_filter.
  rewrite (filter_unique_key token_hash tbl r Hu Hin). simpl.
  destruct ((now <? expired_at r) && is_None (revoked_at r)); reflexivity.
Qed.

Lemma get_by_token_hash_Some h tbl r :
  get_by_token_hash h tbl = Some r -> In r tbl /\ token_hash r = h.
Proof.
  intros H. apply first_filter_Some in H. destruct H as [Hin Hh].
  apply String.eqb_eq in Hh. auto.
Qed.

Lemma existsb_hash_false h tbl :
  existsb (fun r => String.eqb (token_hash r) h) tbl = false <->
  (forall r, In r tbl -> token_hash r <> h).
Proof.
  split.
  - intros H r Hin Heq.
    assert (Ht : existsb (fun r => String.eqb (token_hash r) h) tbl = true).
    { apply existsb_exists. exists r. split; [exact Hin|]. now apply String.eqb_eq. }
    congruence.
  - intros H. destruct (existsb _ tbl) eqn:E; [|reflexivity].
    apply existsb_exists in E. destruct E as (r & Hin & Heq).
    apply String.eqb_eq in Heq. elim (H r Hin Heq).
Qed.

Lemma existsb_id_false new_id tbl :
  existsb (fun r => id r =? new_id) tbl = false <->
  (forall r, In r tbl -> id r <> new_id).
Proof.
  split.
  - intros H r Hin Heq.
    assert (Ht : existsb (fun r => id r =? new_id) tbl = true).
    { apply existsb_exists. exists r. split; [exact Hin|]. now apply Z.eqb_eq. }
    congruence.
  - intros H. destruct (existsb _ tbl) eqn:E; [|reflexivity].
    apply existsb_exists in E. destruct E as (r & Hin & Heq).
    apply Z.eqb_eq in Heq. elim (H r Hin Heq).
Qed.

Lemma existsb_user_true uid (us : list User.t) :
  existsb (fun u => User.id u =? uid) us = true <->
  (exists u, In u us /\ User.id u = uid).
Proof.
  rewrite existsb_exists. split; intros (u & Hin & H); exists u;
    (split; [exact Hin|]); apply Z.eqb_eq; exact H.
Qed.

(** When [save_token] goes through: the row it returns and the database
    it leaves. *)
Lemma save_token_Ok uid h exp ip ua db_now db row db' :
  save_token uid h exp ip ua db_now db = (Ok row, db') ->
  exists stored_ip,
    varchar_null 50 ip = Ok stored_ip
    /\ row = mk (refresh_tokens_id_seq db + 1) uid h db_now exp None stored_ip ua
    /\ db' = mkDb (users db) (refresh_tokens db ++ [row])%list
                  (refresh_tokens_id_seq db + 1)
    /\ (forall r, In r (refresh_tokens db) -> token_hash r <> h)
    /\ (forall r, In r (refresh_tokens db) -> id r <> refresh_tokens_id_seq db + 1)
    /\ (exists u, In u (users db) /\ User.id u = uid).
Proof.
  unfold save_token, create, sendable, violates.
  cbn [user_id token_hash ip_address user_agent expired_at revoked_at].
  destruct (negb _); [discriminate|].
  destruct (negb (int32 _)); [discriminate|].
  destruct (varchar_null 50 ip) as [stored_ip|e]; [|discriminate].
  destruct (existsb (fun r => id r =? _) (refresh_tokens db)) eqn:Eid;
    [discriminate|].
  destruct (existsb (fun r => String.eqb (token_hash r) h) (refresh_tokens db)) eqn:Eh;
    [discriminate|].
  destruct (existsb (fun u => User.id u =? uid) (users db)) eqn:Eu;
    [|discriminate].
  cbn [orb negb]. intros [= <- <-]. exists stored_ip.
  split; [reflexivity|]. split; [reflexivity|]. split; [reflexivity|].
  split; [exact (proj1 (existsb_hash_false h _) Eh)|].
  split; [exact (proj1 (existsb_id_false _ _) Eid)|].
  exact (proj1 (existsb_user_true uid _) Eu).
Qed.

Lemma save_token_unique_token_hash uid h exp ip ua db_now db row db' :
  unique_token_hash (refresh_tokens db) ->
  save_token uid h exp ip ua db_now db = (Ok row, db') ->
  unique_token_hash (refresh_tokens db').
Proof.
  intros Hu Hs. apply save_token_Ok in Hs.
  destruct Hs as (stored_ip & _ & -> & -> & Hfresh & _ & _).
  cbn [refresh_tokens].
  unfold unique_token_hash in *. rewrite map_app. simpl.
  apply NoDup_app; [exact Hu|repeat constructor; simpl; tauto|].
  simpl. intros x Hx [<-|[]]. apply in_map_iff in Hx.
  destruct Hx as (r & Hr & Hin). exact (Hfresh r Hin Hr).
Qed.

(** A save that fails leaves both tables as they were. *)
Lemma save_token_Raise uid h exp ip ua db_now db e db' :
  save_token uid h exp ip ua db_now db = (Raise e, db') ->
  users db' = users db /\ refresh_tokens db' = refresh_tokens db.
Proof.
  unfold save_token, create.
  destruct (negb (sendable _)); [intros [= _ <-]; auto|].
  destruct (negb (int32 _)); [intros [= _ <-]; auto|].
  destruct (varchar_null 50 _) as [stored_ip|e']; [|intros [= _ <-]; auto].
  destruct (violates _ _ db); [intros [= _ <-]; auto|discriminate].
Qed.

Lemma revoke_token_token_hash row now tbl :
  map token_hash (revoke_token row now tbl) = map token_hash tbl.
Proof.
  unfold revoke_token. rewrite map_map. apply map_ext.
  intros r. destruct (id r =? id row); reflexivity.
Qed.

Lemma revoke_token_id row now tbl :
  map id (revoke_token row now tbl) = map id tbl.
Proof.
  unfold revoke_token. rewrite map_map. apply map_ext.
  intros r. destruct (id r =? id row); reflexivity.
Qed.
End Store.

(** C6. [get_active_token] returns a row only if that row is stored under
    the given hash, expires strictly after the current time and is not
    revoked; it returns nothing exactly when every stored row with that hash
    is expired or revoked (in particular when there is none); and since the
    hash column is unique, for a stored row the answer is that row when it
    is active and nothing when it is not. *)
Theorem get_active_token_exactly_active :
  forall (token_hash : string) (current_time : datetime) (tbl : list RefreshToken.t),
    (forall r,
        RefreshTokenRepository.get_active_token token_hash current_time tbl = Some r ->
        In r tbl /\ RefreshToken.token_hash r = token_hash
        /\ current_time < RefreshToken.expired_at r
        /\ RefreshToken.revoked_at r = None)
    /\ (RefreshTokenRepository.get_active_token token_hash current_time tbl = None <->
        forall r, In r tbl -> RefreshToken.token_hash r = token_hash ->
                  RefreshToken.expired_at r <= current_time
                  \/ RefreshToken.revoked_at r <> None)
    /\ (unique_token_hash tbl ->
        forall r, In r tbl -> RefreshToken.token_hash r = token_hash ->
          (current_time < RefreshToken.expired_at r /\ RefreshToken.revoked_at r = None ->
           RefreshTokenRepository.get_active_token token_hash current_time tbl = Some r)
          /\ (RefreshToken.expired_at r <= current_time
              \/ RefreshToken.revoked_at r <> None ->
              RefreshTokenRepository.get_active_token token_hash current_time tbl = None)).
Proof.
  intros h now tbl. split; [|split].
  - intros r H. apply first_filter_Some in H. destruct H as [Hin Hact].
    apply active_where_true in Hact. tauto.
  - unfold RefreshTokenRepository.get_active_token. rewrite first_filter_None. split.
    + intros H r Hin Hh. apply (active_where_false h now r Hh). auto.
    + intros H r Hin.
      destruct (string_dec (RefreshToken.token_hash r) h) as [Hh|Hh].
      * apply (active_where_false h now r Hh). auto.
      * apply active_where_other_hash. exact Hh.
  - intros Hu r Hin <-. rewrite (get_active_token_unique tbl r now Hu Hin). split.
    + intros [Hlt Hrev]. apply Z.ltb_lt in Hlt. rewrite Hlt, Hrev. reflexivity.
    + intros [Hle|Hrev].
      * apply Z.ltb_ge in Hle. rewrite Hle. reflexivity.
      * destruct (RefreshToken.revoked_at r); [|congruence].
        rewrite andb_false_r. reflexivity.
Qed.

Lemma scenario_db_stolen_unique :
  unique_token_hash (refresh_tokens Scenario.db_stolen).
Proof.
  unfold unique_token_hash. simpl. repeat constructor; simpl; intuition discriminate.
Qed.

Lemma get_active_token_exactly_active_witness :
  RefreshTokenRepository.get_active_token
    "sha256:r2" Scenario.t0 (refresh_tokens Scenario.db_stolen)
  = Some (Scenario.token_row 2 1 "r2" (Scenario.t0 + 6 * Scenario.day) None)
  /\ RefreshTokenRepository.get_active_token
       "sha256:r1" Scenario.t0 (refresh_tokens Scenario.db_stolen)
     = None.
Proof.
  pose proof (get_active_token_exactly_active
                "sha256:r2" Scenario.t0 (refresh_tokens Scenario.db_stolen)) as H2.
  pose proof (get_active_token_exactly_active
                "sha256:r1" Scenario.t0 (refresh_tokens Scenario.db_stolen)) as H1.
  destruct H2 as (_ & _ & H2). destruct H1 as (_ & _ & H1).
  split.
  - apply (H2 scenario_db_stolen_unique
              (Scenario.token_row 2 1 "r2" (Scenario.t0 + 6 * Scenario.day) None)).
    + simpl. auto.
    + reflexivity.
    + split; [reflexivity|reflexivity].
  - apply (H1 scenario_db_stolen_unique
              (Scenario.token_row 1 1 "r1" (Scenario.t0 + 6 * Scenario.day)
                                  (Some (Scenario.t0 - Scenario.hour)))).
    + simpl. auto.
    + reflexivity.
    + right. discriminate.
Defined.

(** C10. Round trip of the store.  Whenever [save_token] has stored a
    token, that is, has returned a row, the hash was not stored before, the
    table has grown by exactly that row and the users are untouched; the row
    carries the given user, hash, expiry and user agent, the client address
    as its [String(50)] column holds it, and [revoked_at] unset; and
    [get_active_token] returns that row for the hash at every time strictly
    before its expiry. *)
Theorem save_token_then_active :
  forall (user_id : Z) (token_hash : string) (expired_at : datetime)
         (ip_address user_agent : option string) (db_now : datetime) (db : Db)
         (row : RefreshToken.t) (db' : Db),
    RefreshTokenRepository.save_token user_id token_hash expired_at
                                      ip_address user_agent db_now db
    = (Ok row, db') ->
    (forall r, In r (refresh_tokens db) -> RefreshToken.token_hash r <> token_hash)
    /\ refresh_tokens db' = (refresh_tokens db ++ [row])%list
    /\ users db' = users db
    /\ RefreshToken.revoked_at row = None
    /\ RefreshToken.user_id row = user_id
    /\ RefreshToken.token_hash row = token_hash
    /\ RefreshToken.expired_at row = expired_at
    /\ varchar_null 50 ip_address = Ok (RefreshToken.ip_address row)
    /\ RefreshToken.user_agent row = user_agent
    /\ (exists user, In user (users db) /\ User.id user = user_id)
    /\ forall t, t < expired_at ->
         RefreshTokenRepository.get_active_token token_hash t (refresh_tokens db')
         = Some row.
Proof.
  intros uid h exp ip ua db_now db row db' Hsave. apply save_token_Ok in Hsave.
  destruct Hsave as (stored_ip & Hip & -> & -> & Hfresh & _ & Huser).
  cbn [refresh_tokens users RefreshToken.revoked_at RefreshToken.user_id
       RefreshToken.token_hash RefreshToken.expired_at RefreshToken.ip_address
       RefreshToken.user_agent].
  split; [exact Hfresh|]. repeat (split; [reflexivity|]).
  split; [exact Hip|]. split; [reflexivity|]. split; [exact Huser|].
  intros t Ht. unfold RefreshTokenRepository.get_active_token.
  rewrite filter_app. rewrite (filter_none _ (refresh_tokens db)).
  - simpl. unfold RefreshTokenRepository.active_where. simpl.
    rewrite String.eqb_refl. apply Z.ltb_lt in Ht. rewrite Ht. reflexivity.
  - intros r Hin. apply active_where_other_hash. apply Hfresh. exact Hin.
Qed.

Lemma save_token_then_active_witness :
  exists row db',
    RefreshTokenRepository.save_token
      1 "sha256:r9" (Scenario.t0 + 7 * Scenario.day) (Some "10.0.0.7") None
      Scenario.t0 Scenario.db_login
    = (Ok row, db')
    /\ RefreshToken.revoked_at row = None
    /\ RefreshTokenRepository.get_active_token
         "sha256:r9" Scenario.t0 (refresh_tokens db')
       = Some row.
Proof.
  exists (RefreshToken.mk 2 1 "sha256:r9" Scenario.t0 (Scenario.t0 + 7 * Scenario.day)
                          None (Some "10.0.0.7") None).
  exists (snd (RefreshTokenRepository.save_token
                 1 "sha256:r9" (Scenario.t0 + 7 * Scenario.day) (Some "10.0.0.7") None
                 Scenario.t0 Scenario.db_login)).
  split; [reflexivity|].
  destruct (save_token_then_active
              1 "sha256:r9" (Scenario.t0 + 7 * Scenario.day) (Some "10.0.0.7") None
              Scenario.t0 Scenario.db_login _ _ eq_refl)
    as (_ & _ & _ & Hrev & _ & _ & _ & _ & _ & _ & Hact).
  split; [exact Hrev|]. apply Hact. reflexivity.
Defined.

(** C5, as stated, fails: revoking a record that is already revoked is not
    a no-op.  A row revoked two days ago and revoked again now carries the
    new timestamp, so the stored table differs from the one before. *)
Lemma revoke_token_overwrites_timestamp :
  RefreshToken.revoked_at Scenario.revoked_2d = Some (Scenario.t0 - 2 * Scenario.day)
  /\ RefreshTokenRepository.revoke_token
       Scenario.revoked_2d Scenario.t0 [Scenario.revoked_2d]
     <> [Scenario.revoked_2d]
  /\ map RefreshToken.revoked_at
         (RefreshTokenRepository.revoke_token
            Scenario.revoked_2d Scenario.t0 [Scenario.revoked_2d])
     = [Some Scenario.t0].
Proof.
  split; [reflexivity|]. split; [|reflexivity].
  intros H. apply (f_equal (map RefreshToken.revoked_at)) in H.
  vm_compute in H. discriminate.
Qed.

(** C5, amended.  [revoke_token] never fails and writes the current time
    into [revoked_at] of the record's row whether or not it was set before:
    the row's other columns and all other rows stay as they were, a revoked
    row stays revoked, and of two revocations the later timestamp is the one
    that is kept; a repeated call is a no-op only when it writes the same
    timestamp again. *)
Theorem revoke_token_last_write_wins :
  forall (refresh_token : RefreshToken.t) (now : datetime) (tbl : list RefreshToken.t),
    let tbl' := RefreshTokenRepository.revoke_token refresh_token now tbl in
    List.length tbl' = List.length tbl
    /\ (forall r, In r tbl -> RefreshToken.id r = RefreshToken.id refresh_token ->
          In (RefreshToken.set_revoked_at (Some now) r) tbl')
    /\ (forall r, In r tbl -> RefreshToken.id r <> RefreshToken.id refresh_token ->
          In r tbl')
    /\ (forall r', In r' tbl' -> RefreshToken.id r' = RefreshToken.id refresh_token ->
          RefreshToken.revoked_at r' = Some now)
    /\ (forall later,
          RefreshTokenRepository.revoke_token refresh_token later tbl'
          = RefreshTokenRepository.revoke_token refresh_token later tbl)
    /\ RefreshTokenRepository.revoke_token refresh_token now tbl' = tbl'.
Proof.
  intros rt now tbl tbl'. subst tbl'. unfold RefreshTokenRepository.revoke_token.
  assert (Hlater : forall later,
             map (fun r => if RefreshToken.id r =? RefreshToken.id rt
                           then RefreshTokenRepository.revoke_record later r else r)
                 (map (fun r => if RefreshToken.id r =? RefreshToken.id rt
                                then RefreshTokenRepository.revoke_record now r else r) tbl)
             = map (fun r => if RefreshToken.id r =? RefreshToken.id rt
                             then RefreshTokenRepository.revoke_record later r else r) tbl).
  { intros later. rewrite map_map. apply map_ext. intros r.
    destruct (RefreshToken.id r =? RefreshToken.id rt) eqn:E; simpl; rewrite E; reflexivity. }
  repeat split.
  - apply length_map.
  - intros r Hin Hid. apply in_map_iff. exists r. split; [|exact Hin].
    apply Z.eqb_eq in Hid. rewrite Hid. reflexivity.
  - intros r Hin Hid. apply in_map_iff. exists r. split; [|exact Hin].
    apply Z.eqb_neq in Hid. rewrite Hid. reflexivity.
  - intros r' Hin Hid. apply in_map_iff in Hin. destruct Hin as (r & <- & _).
    destruct (RefreshToken.id r =? RefreshToken.id rt) eqn:E; [reflexivity|].
    apply Z.eqb_neq in E. contradiction.
  - exact Hlater.
  - apply Hlater.
Qed.

Lemma revoke_token_last_write_wins_witness :
  In (RefreshToken.set_revoked_at (Some Scenario.t0) Scenario.revoked_2d)
     (RefreshTokenRepository.revoke_token
        Scenario.revoked_2d Scenario.t0 [Scenario.revoked_2d; Scenario.still_active])
  /\ In Scenario.still_active
        (RefreshTokenRepository.revoke_token
           Scenario.revoked_2d Scenario.t0 [Scenario.revoked_2d; Scenario.still_active]).
Proof.
  destruct (revoke_token_last_write_wins
              Scenario.revoked_2d Scenario.t0 [Scenario.revoked_2d; Scenario.still_active])
    as (_ & Hsame & Hother & _).
  split.
  - apply Hsame; [simpl; auto|reflexivity].
  - apply Hother; [simpl; auto|discriminate].
Defined.

(** ** The expiry sweeper *)

Lemma delete_where_true now r :
  Sweeper.delete_where now (now - timedelta_days 7) r = true <->
  RefreshToken.expired_at r < now
  \/ (exists t, RefreshToken.revoked_at r = Some t /\ t < now - 7 * 86400000000).
Proof.
  unfold Sweeper.delete_where, timedelta_days, microseconds_per_day.
  rewrite orb_true_iff, Z.ltb_lt.
  destruct (RefreshToken.revoked_at r) as [t|]; simpl.
  - rewrite Z.ltb_lt. split.
    + intros [H|H]; [left; exact H|right; exists t; auto].
    + intros [H|(t' & [= <-] & H)]; auto.
  - split.
    + intros [H|H]; [left; exact H|discriminate].
    + intros [H|(t' & [=] & _)]. left; exact H.
Qed.

(** C7. A sweeper run at [now] removes exactly the rows with
    [expired_at < now] or with [revoked_at] set and earlier than
    [now - 7 days]: a row is in the table afterwards if and only if it was
    there before and meets neither condition.  The rows that stay are the
    same rows in the same order, and every row that is active at [now]
    stays. *)
Theorem cleanup_expired_tokens_deletes_exactly_stale :
  forall (now : datetime) (tbl : list RefreshToken.t),
    let stale r :=
      RefreshToken.expired_at r < now
      \/ (exists t, RefreshToken.revoked_at r = Some t /\ t < now - 7 * 86400000000) in
    let tbl' := Sweeper.cleanup_expired_tokens now tbl in
    (forall r, In r tbl' <-> In r tbl /\ ~ stale r)
    /\ (forall r, In r tbl -> stale r -> ~ In r tbl')
    /\ (forall l1 l2, tbl = (l1 ++ l2)%list ->
          tbl' = (Sweeper.cleanup_expired_tokens now l1
                  ++ Sweeper.cleanup_expired_tokens now l2)%list)
    /\ ((forall r, In r tbl -> ~ stale r) -> tbl' = tbl)
    /\ (forall r, In r tbl ->
          RefreshToken.revoked_at r = None -> now < RefreshToken.expired_at r ->
          In r tbl').
Proof.
  intros now tbl stale tbl'. subst tbl'. unfold Sweeper.cleanup_expired_tokens.
  assert (Hkeep : forall r,
             negb (Sweeper.delete_where now (now - timedelta_days 7) r) = true
             <-> ~ stale r).
  { intros r. unfold stale. rewrite negb_true_iff. rewrite <- (delete_where_true now r).
    destruct (Sweeper.delete_where now (now - timedelta_days 7) r); split; congruence. }
  assert (Hin : forall r,
             In r (filter (fun r => negb (Sweeper.delete_where now (now - timedelta_days 7) r)) tbl)
             <-> In r tbl /\ ~ stale r).
  { intros r. rewrite filter_In, Hkeep. reflexivity. }
  split; [exact Hin|]. split; [|split; [|split]].
  - intros r _ Hst Hr. apply Hin in Hr. tauto.
  - intros l1 l2 ->. apply filter_app.
  - clear Hin. intros Hall. induction tbl as [|x tbl IH]; cbn [filter]; [reflexivity|].
    assert (Hx : negb (Sweeper.delete_where now (now - timedelta_days 7) x) = true).
    { apply Hkeep. apply Hall. left. reflexivity. }
    rewrite Hx. f_equal. apply IH.
    intros r Hr. apply Hall. right. exact Hr.
  - intros r Hr Hrev Hexp. apply Hin. split; [exact Hr|].
    intros [Hlt|(t & Ht & _)]; [lia|congruence].
Qed.

Lemma cleanup_expired_tokens_deletes_exactly_stale_witness :
  Sweeper.cleanup_expired_tokens
    Scenario.t0 [Scenario.expired_8d; Scenario.revoked_8d; Scenario.still_active]
  = [Scenario.still_active]
  /\ In Scenario.still_active
        (Sweeper.cleanup_expired_tokens
           Scenario.t0 [Scenario.expired_8d; Scenario.revoked_8d; Scenario.still_active])
  /\ ~ In Scenario.revoked_8d
        (Sweeper.cleanup_expired_tokens
           Scenario.t0 [Scenario.expired_8d; Scenario.revoked_8d; Scenario.still_active]).
Proof.
  destruct (cleanup_expired_tokens_deletes_exactly_stale
              Scenario.t0 [Scenario.expired_8d; Scenario.revoked_8d; Scenario.still_active])
    as (_ & Hgone & _ & _ & Hstay).
  split; [reflexivity|]. split.
  - apply Hstay; [simpl; auto|reflexivity|reflexivity].
  - apply Hgone; [simpl; auto|].
    right. exists (Scenario.t0 - 8 * Scenario.day). split; reflexivity.
Defined.

(** C8, as stated, fails: expiry has no grace window.  A never-revoked row
    that expired one hour before the run, well inside seven days, is deleted
    by that run. *)
Lemma sweeper_purges_recently_expired :
  Scenario.t0 - 7 * Scenario.day < RefreshToken.expired_at Scenario.expired_1h
  /\ RefreshToken.expired_at Scenario.expired_1h < Scenario.t0
  /\ RefreshToken.revoked_at Scenario.expired_1h = None
  /\ In Scenario.expired_1h [Scenario.expired_1h; Scenario.still_active]
  /\ ~ In Scenario.expired_1h
        (Sweeper.cleanup_expired_tokens
           Scenario.t0 [Scenario.expired_1h; Scenario.still_active]).
Proof.
  repeat (split; [reflexivity|]). split; [simpl; auto|].
  vm_compute. intros [H|[]]. discriminate.
Qed.

(** C8, amended.  The seven-day grace window applies to revocation only.  A
    row that has not expired at the time of a run ([now <= expired_at]) and
    is either not revoked or was revoked at most seven days before the run
    survives it; so a revoked row is never purged before seven days have
    passed since its revocation unless it expires first.  A row whose expiry
    lies before the run is purged by that run, however recent the expiry. *)
Theorem sweeper_grace_window_revocation_only :
  forall (now : datetime) (tbl : list RefreshToken.t) (r : RefreshToken.t),
    In r tbl ->
    (now <= RefreshToken.expired_at r ->
     (forall t, RefreshToken.revoked_at r = Some t -> now - 7 * 86400000000 <= t) ->
     In r (Sweeper.cleanup_expired_tokens now tbl))
    /\ (RefreshToken.expired_at r < now ->
        ~ In r (Sweeper.cleanup_expired_tokens now tbl)).
Proof.
  intros now tbl r Hin. unfold Sweeper.cleanup_expired_tokens. split.
  - intros Hexp Hrev. apply filter_In. split; [exact Hin|].
    apply negb_true_iff.
    destruct (Sweeper.delete_where now (now - timedelta_days 7) r) eqn:E; [|reflexivity].
    apply delete_where_true in E. destruct E as [E|(t & Ht & E)].
    + lia.
    + specialize (Hrev t Ht). lia.
  - intros Hexp Hr. apply filter_In in Hr. destruct Hr as [_ Hr].
    apply negb_true_iff in Hr.
    assert (E : Sweeper.delete_where now (now - timedelta_days 7) r = true).
    { apply delete_where_true. left. exact Hexp. }
    congruence.
Qed.

Lemma sweeper_grace_window_revocation_only_witness :
  In Scenario.revoked_2d
     (Sweeper.cleanup_expired_tokens
        Scenario.t0 [Scenario.revoked_2d; Scenario.expired_1h])
  /\ ~ In Scenario.expired_1h
        (Sweeper.cleanup_expired_tokens
           Scenario.t0 [Scenario.revoked_2d; Scenario.expired_1h]).
Proof.
  split.
  - apply (sweeper_grace_window_revocation_only
             Scenario.t0 [Scenario.revoked_2d; Scenario.expired_1h] Scenario.revoked_2d).
    + simpl. auto.
    + vm_compute. discriminate.
    + intros t [= <-]. vm_compute. discriminate.
  - apply (sweeper_grace_window_revocation_only
             Scenario.t0 [Scenario.revoked_2d; Scenario.expired_1h] Scenario.expired_1h).
    + simpl. auto.
    + reflexivity.
Defined.

(** ** The user repository *)

Section Users.
Import User UserRepository.
Implicit Types (tbl : list User.t) (u : User.t).

Lemma get_user_by_email_unique tbl u :
  unique_email tbl -> In u tbl -> get_user_by_email (email u) tbl = Ok (Some u).
Proof.
  intros Hu Hin. unfold get_user_by_email.
  rewrite (filter_unique_key email tbl u Hu Hin). reflexivity.
Qed.

Lemma get_user_by_email_absent tbl e :
  (forall u, In u tbl -> email u <> e) -> get_user_by_email e tbl = Ok None.
Proof.
  intros Habs. unfold get_user_by_email. rewrite filter_none; [reflexivity|].
  intros u Hin. apply String.eqb_neq. apply Habs. exact Hin.
Qed.

Lemma update_password_email user h tbl :
  map email (snd (update_password user h tbl)) = map email tbl.
Proof.
  simpl. rewrite map_map. apply map_ext.
  intros u. destruct (id u =? id user); reflexivity.
Qed.

Lemma update_password_In user h tbl :
  In user tbl -> In (set_hash_password h user) (snd (update_password user h tbl)).
Proof.
  intros Hin. simpl. apply in_map_iff. exists user.
  rewrite Z.eqb_refl. auto.
Qed.
End Users.

(** ** Requests for e-mail *)

(** C1, as stated, fails: the answer depends on whether the address is
    registered.  Against a database that holds only alice, a request for
    alice's address succeeds while a request for an unknown address raises
    404 "User not found". *)
Lemma request_password_reset_reveals_unknown_email :
  routes_auth.request_password_reset
    Scenario.settings Scenario.hour "mallory@x.com" Scenario.request
    (Scenario.env Scenario.t0 "r2") Scenario.db_login
  = Raise (HTTPException 404 "User not found")
  /\ exists tasks,
      routes_auth.request_password_reset
        Scenario.settings Scenario.hour "alice@x.com" Scenario.request
        (Scenario.env Scenario.t0 "r2") Scenario.db_login
      = Ok ("Password reset instructions sent to your email", tasks).
Proof.
  split; [reflexivity|]. eexists. reflexivity.
Qed.

(** C1, amended.  [request_password_reset] returns the success message, and
    queues the e-mail with the reset link, when a user with the given
    address exists; when no user has that address it raises
    [HTTPException(404, "User not found")] and queues nothing, so the
    caller learns that the address is not registered. *)
Theorem request_password_reset_ok_iff_registered :
  forall (settings : Settings) (reset_token_ttl : Z) (body_email : string)
         (request : Request) (env : Ambient) (db : Db),
    unique_email (users db) ->
    (forall user, In user (users db) -> User.email user = body_email ->
       routes_auth.request_password_reset settings reset_token_ttl body_email request env db
       = Ok ("Password reset instructions sent to your email",
             [send_email (User.email user) (User.username user)
                (ResetLink (base_url request)
                   (AuthService.create_reset_token settings reset_token_ttl
                      (User.email user) (utc_now env)))]))
    /\ ((forall user, In user (users db) -> User.email user <> body_email) ->
        routes_auth.request_password_reset settings reset_token_ttl body_email request env db
        = Raise (HTTPException 404 "User not found")).
Proof.
  intros settings ttl e request env db Hu. split.
  - intros user Hin <-. unfold routes_auth.request_password_reset.
    rewrite (get_user_by_email_unique _ _ Hu Hin). reflexivity.
  - intros Habs. unfold routes_auth.request_password_reset.
    rewrite (get_user_by_email_absent _ _ Habs). reflexivity.
Qed.

Lemma scenario_db_login_unique_email : unique_email (users Scenario.db_login).
Proof.
  unfold unique_email. simpl. repeat constructor; simpl; tauto.
Qed.

Lemma request_password_reset_ok_iff_registered_witness :
  routes_auth.request_password_reset
    Scenario.settings Scenario.hour "nobody@x.com" Scenario.request
    (Scenario.env Scenario.t0 "r2") Scenario.db_login
  = Raise (HTTPException 404 "User not found").
Proof.
  apply (request_password_reset_ok_iff_registered
           Scenario.settings Scenario.hour "nobody@x.com" Scenario.request
           (Scenario.env Scenario.t0 "r2") Scenario.db_login
           scenario_db_login_unique_email).
  simpl. intros user [<-|[]]. discriminate.
Defined.

(** C9.  What [request_email] does for an address with no user: the lookup
    yields [None], and the first statement after it reads [user.confirmed],
    so the call raises [AttributeError] and never reaches the
    ["Check your email"] answer that the [if user:] test further down was
    written to protect. *)
Theorem request_email_unknown_email_raises :
  forall (user_service : routes_users.UserService) (body_email : string)
         (request : Request),
    routes_users.get_user_by_email user_service body_email = Ok None ->
    routes_users.request_email body_email request user_service
    = Raise (AttributeError "'NoneType' object has no attribute 'confirmed'").
Proof.
  intros us e request Hnone. unfold routes_users.request_email.
  rewrite Hnone. reflexivity.
Qed.

Lemma request_email_unknown_email_raises_witness :
  routes_users.request_email
    "mallory@x.com" Scenario.request (routes_users.user_service_over Scenario.db_login)
  = Raise (AttributeError "'NoneType' object has no attribute 'confirmed'").
Proof.
  apply (request_email_unknown_email_raises
           (routes_users.user_service_over Scenario.db_login)
           "mallory@x.com" Scenario.request).
  reflexivity.
Defined.

(** ** Password reset *)

Section PasswordReset.
Context (settings : Settings) {hasher : Hasher}.
Import TokenCodec.

Lemma decode_reset_token_Ok c now :
  purpose c = "reset" -> now < exp c ->
  AuthService.decode_reset_token settings (Signed (SECRET_KEY settings) c) now
  = Ok (sub c).
Proof.
  intros Hp Hlt. unfold AuthService.decode_reset_token, decode_action, decode.
  rewrite String.eqb_refl. simpl.
  destruct (exp c <=? now) eqn:E; [apply Z.leb_le in E; lia|].
  rewrite Hp. reflexivity.
Qed.

Lemma decode_reset_token_Expired c now :
  exp c <= now ->
  AuthService.decode_reset_token settings (Signed (SECRET_KEY settings) c) now
  = Raise Expired.
Proof.
  intros Hle. unfold AuthService.decode_reset_token, decode_action, decode.
  rewrite String.eqb_refl. simpl.
  apply Z.leb_le in Hle. rewrite Hle. reflexivity.
Qed.

(** A reset with a token that decodes, for a registered address, goes
    through and stores the new digest. *)
Lemma reset_password_Ok c pw env db user :
  purpose c = "reset" -> utc_now env < exp c ->
  unique_email (users db) -> In user (users db) -> User.email user = sub c ->
  routes_auth.reset_password settings (Signed (SECRET_KEY settings) c) pw env db
  = (Ok "Password has been successfully reset",
     set_users (snd (UserRepository.update_password
                       user (_hash_password (fresh_salt env) pw) (users db))) db).
Proof.
  intros Hp Hlt Hu Hin He. unfold routes_auth.reset_password, bind, lift.
  rewrite (decode_reset_token_Ok c _ Hp Hlt). rewrite <- He.
  rewrite (get_user_by_email_unique _ _ Hu Hin). reflexivity.
Qed.
End PasswordReset.

(** C4, as stated, fails: a reset token can be used again.  A token issued
    for alice with one hour to live resets her password one minute later
    and, presented a second time a minute after that, resets it again. *)
Lemma reset_token_accepted_twice :
  let minute := 60000000 in
  let token :=
    AuthService.create_reset_token Scenario.settings Scenario.hour "alice@x.com" Scenario.t0 in
  let first_use :=
    routes_auth.reset_password (hasher := Scenario.hasher) Scenario.settings token "Hunter2"
      (mkAmbient (Scenario.t0 + minute) (Scenario.t0 + minute) "j" "r" "s1")
      Scenario.db_login in
  let second_use :=
    routes_auth.reset_password (hasher := Scenario.hasher) Scenario.settings token "Hunter3"
      (mkAmbient (Scenario.t0 + 2 * minute) (Scenario.t0 + 2 * minute) "j" "r" "s2")
      (snd first_use) in
  fst first_use = Ok "Password has been successfully reset"
  /\ map User.hash_password (users (snd first_use)) = ["bcrypt:s1:Hunter2"]
  /\ fst second_use = Ok "Password has been successfully reset"
  /\ fst second_use <> Raise InvalidToken
  /\ fst second_use <> Raise Expired
  /\ map User.hash_password (users (snd second_use)) = ["bcrypt:s2:Hunter3"].
Proof.
  vm_compute. repeat split; discriminate.
Qed.

(** C4, amended.  A password-reset token is not single-use: it is a
    stateless signed bundle, and nothing records that it was presented.
    After a successful [reset_password] with a token, presenting the same
    token again before its expiry succeeds again and replaces the stored
    digest with that of the newly given password; only once the expiry has
    been reached does the second presentation fail, with [Expired], leaving
    the password as the first call set it. *)
Theorem reset_token_reusable_until_expiry :
  forall (settings : Settings) (hasher : Hasher) (c : TokenCodec.claims)
         (password1 password2 : string) (env1 env2 : Ambient) (db : Db) (user : User.t),
    TokenCodec.purpose c = "reset" ->
    unique_email (users db) -> In user (users db) ->
    User.email user = TokenCodec.sub c ->
    utc_now env1 < TokenCodec.exp c ->
    let token := TokenCodec.Signed (SECRET_KEY settings) c in
    exists db1,
      routes_auth.reset_password settings token password1 env1 db
      = (Ok "Password has been successfully reset", db1)
      /\ (utc_now env2 < TokenCodec.exp c ->
          exists db2 user2,
            routes_auth.reset_password settings token password2 env2 db1
            = (Ok "Password has been successfully reset", db2)
            /\ UserRepository.get_user_by_email (TokenCodec.sub c) (users db2)
               = Ok (Some user2)
            /\ User.hash_password user2 = _hash_password (fresh_salt env2) password2)
      /\ (TokenCodec.exp c <= utc_now env2 ->
          routes_auth.reset_password settings token password2 env2 db1
          = (Raise Expired, db1)).
Proof.
  intros settings hasher c pw1 pw2 env1 env2 db user Hp Hu Hin He Hlt1 token.
  subst token. eexists. split; [apply (reset_password_Ok settings c pw1 env1 db user); assumption|].
  set (h1 := _hash_password (fresh_salt env1) pw1).
  set (db1 := set_users (snd (UserRepository.update_password user h1 (users db))) db).
  assert (Hu1 : unique_email (users db1)).
  { unfold unique_email, db1. cbn [users set_users].
    rewrite update_password_email. exact Hu. }
  assert (Hin1 : In (User.set_hash_password h1 user) (users db1)).
  { unfold db1. cbn [users set_users]. apply update_password_In. exact Hin. }
  split.
  - intros Hlt2.
    set (h2 := _hash_password (fresh_salt env2) pw2).
    exists (set_users (snd (UserRepository.update_password
                              (User.set_hash_password h1 user) h2 (users db1))) db1).
    exists (User.set_hash_password h2 (User.set_hash_password h1 user)).
    split; [|split].
    + apply (reset_password_Ok settings c pw2 env2 db1 (User.set_hash_password h1 user));
        assumption.
    + cbn [users set_users].
      replace (TokenCodec.sub c)
        with (User.email (User.set_hash_password h2 (User.set_hash_password h1 user)))
        by exact He.
      apply get_user_by_email_unique.
      * unfold unique_email. rewrite update_password_email. exact Hu1.
      * apply update_password_In. exact Hin1.
    + reflexivity.
  - intros Hle. unfold routes_auth.reset_password, bind, lift.
    rewrite (decode_reset_token_Expired settings c _ Hle). reflexivity.
Qed.

Lemma reset_token_reusable_until_expiry_witness :
  exists db1,
    routes_auth.reset_password (hasher := Scenario.hasher) Scenario.settings
      (AuthService.create_reset_token Scenario.settings Scenario.hour
                                      "alice@x.com" Scenario.t0)
      "Hunter2" (Scenario.env (Scenario.t0 + 1) "r") Scenario.db_login
    = (Ok "Password has been successfully reset", db1)
    /\ exists db2,
        routes_auth.reset_password (hasher := Scenario.hasher) Scenario.settings
          (AuthService.create_reset_token Scenario.settings Scenario.hour
                                          "alice@x.com" Scenario.t0)
          "Hunter3" (Scenario.env (Scenario.t0 + 2) "r") db1
        = (Ok "Password has been successfully reset", db2).
Proof.
  destruct (reset_token_reusable_until_expiry
              Scenario.settings Scenario.hasher
              (TokenCodec.mkClaims "alice@x.com" "reset" Scenario.t0
                                   (Scenario.t0 + Scenario.hour) "")
              "Hunter2" "Hunter3"
              (Scenario.env (Scenario.t0 + 1) "r") (Scenario.env (Scenario.t0 + 2) "r")
              Scenario.db_login Scenario.alice)
    as (db1 & H1 & H2 & _).
  - reflexivity.
  - exact scenario_db_login_unique_email.
  - simpl. auto.
  - reflexivity.
  - reflexivity.
  - exists db1. split; [exact H1|].
    destruct H2 as (db2 & _ & H2 & _); [reflexivity|].
    exists db2. exact H2.
Defined.

(** ** Refresh: rotation and reuse detection *)

Section Refresh.
Context (settings : Settings) {hasher : Hasher}.
Import RefreshToken RefreshTokenRepository.
Implicit Types (tbl : list RefreshToken.t) (r row : RefreshToken.t).

Lemma primary_key_inj tbl a b :
  primary_key tbl -> In a tbl -> In b tbl -> id a = id b -> a = b.
Proof.
  unfold primary_key. induction tbl as [|x tbl IH]; simpl; [contradiction|].
  intros Hnd Ha Hb Hid. inversion Hnd as [|? ? Hnotin Hnd']; subst.
  destruct Ha as [->|Ha], Hb as [->|Hb].
  - reflexivity.
  - exfalso. apply Hnotin. rewrite Hid. apply in_map. exact Hb.
  - exfalso. apply Hnotin. rewrite <- Hid. apply in_map. exact Ha.
  - apply IH; assumption.
Qed.

(** Revoking a list of rows one after the other revokes the rows whose
    primary key is among theirs. *)
Lemma fold_revoke_token targets local tbl :
  fold_left (fun t r => revoke_token r local t) targets tbl =
  map (fun x => if existsb (fun r => id x =? id r) targets
                then revoke_record local x else x) tbl.
Proof.
  revert tbl. induction targets as [|r targets IH]; intros tbl; simpl.
  - symmetry. apply map_id.
  - rewrite IH. unfold revoke_token at 1. rewrite map_map. apply map_ext.
    intros x. destruct (id x =? id r) eqn:E; simpl; [|reflexivity].
    destruct (existsb _ targets); reflexivity.
Qed.

Lemma existsb_id_filter p tbl x :
  primary_key tbl -> In x tbl ->
  existsb (fun r => id x =? id r) (filter p tbl) = p x.
Proof.
  intros Hpk Hin. destruct (p x) eqn:Hx.
  - apply existsb_exists. exists x. split; [|apply Z.eqb_refl].
    apply filter_In. auto.
  - destruct (existsb _ (filter p tbl)) eqn:E; [|reflexivity].
    apply existsb_exists in E. destruct E as (r & Hr & Hid).
    apply filter_In in Hr. destruct Hr as [Hr Hpr]. apply Z.eqb_eq in Hid.
    assert (x = r) by (apply (primary_key_inj tbl); assumption).
    subst r. congruence.
Qed.

Lemma revoke_other_active_map row now local tbl :
  primary_key tbl ->
  AuthService.revoke_other_active row now local tbl =
  map (fun x => if AuthService.other_active row now x
                then revoke_record local x else x) tbl.
Proof.
  intros Hpk. unfold AuthService.revoke_other_active.
  rewrite fold_revoke_token. apply map_ext_in. intros x Hin.
  rewrite (existsb_id_filter _ tbl x Hpk Hin). reflexivity.
Qed.

Lemma other_active_true row now r :
  AuthService.other_active row now r = true <->
  user_id r = user_id row /\ id r <> id row
  /\ now < expired_at r /\ revoked_at r = None.
Proof.
  unfold AuthService.other_active.
  rewrite !andb_true_iff, negb_true_iff, Z.eqb_eq, Z.eqb_neq, Z.ltb_lt.
  destruct (revoked_at r); simpl; intuition congruence.
Qed.

(** A lookup by hash in a table where the presented row has just been
    rewritten. *)
Lemma filter_hash_revoke_token h row local tbl :
  filter (fun r => String.eqb (token_hash r) h) (revoke_token row local tbl) =
  map (fun r => if id r =? id row then revoke_record local r else r)
      (filter (fun r => String.eqb (token_hash r) h) tbl).
Proof.
  unfold revoke_token. apply filter_map_preserved.
  intros x. destruct (id x =? id row); reflexivity.
Qed.

Lemma validate_refresh_token_Ok s now local db user db' :
  AuthService.validate_refresh_token s now local db = (Ok user, db') ->
  db' = db
  /\ exists row,
      get_active_token (hash_token s) now (refresh_tokens db) = Some row
      /\ AuthService.get_by_id (user_id row) (users db) = Some user.
Proof.
  unfold AuthService.validate_refresh_token.
  destruct (get_active_token _ now (refresh_tokens db)) as [row|] eqn:Hact.
  - destruct (AuthService.get_by_id _ (users db)) as [u|] eqn:Hu; [|discriminate].
    intros [= <- <-]. split; [reflexivity|]. exists row. auto.
  - destruct (get_by_token_hash _ (refresh_tokens db)) as [row|]; [|discriminate].
    destruct (is_None (revoked_at row)); discriminate.
Qed.

(** Presenting a secret whose row is revoked: the answer and the table
    that is left. *)
Lemma validate_refresh_token_revoked s now local db row :
  unique_token_hash (refresh_tokens db) ->
  get_by_token_hash (hash_token s) (refresh_tokens db) = Some row ->
  revoked_at row <> None ->
  AuthService.validate_refresh_token s now local db =
  (Raise Unauthorized,
   set_refresh_tokens
     (AuthService.revoke_other_active row now local (refresh_tokens db)) db).
Proof.
  intros Hu Hget Hrev. unfold AuthService.validate_refresh_token.
  destruct (get_by_token_hash_Some _ _ _ Hget) as [Hin Hh].
  rewrite <- Hh at 1. rewrite (get_active_token_unique _ _ now Hu Hin).
  destruct (revoked_at row) as [t|] eqn:E; [|congruence].
  rewrite andb_false_r. rewrite Hget, E. reflexivity.
Qed.

(** The table a successful refresh leaves: the new row is appended and the
    presented row is rewritten. *)
Lemma refresh_Ok s request env db resp db' :
  unique_token_hash (refresh_tokens db) ->
  routes_auth.refresh settings s request env db = (Ok resp, db') ->
  exists row user stored_ip,
    In row (refresh_tokens db)
    /\ token_hash row = hash_token s
    /\ AuthService.get_by_id (user_id row) (users db) = Some user
    /\ (forall r, In r (refresh_tokens db) ->
          token_hash r <> hash_token (fresh_secret env))
    /\ (forall r, In r (refresh_tokens db) -> id r <> refresh_tokens_id_seq db + 1)
    /\ resp = mkTokenResponse
                (AuthService.create_access_token
                   settings (utc_now env) (fresh_jti env) (User.username user))
                "bearer" (fresh_secret env)
    /\ db' = mkDb (users db)
                  (revoke_token row (local_now env)
                     (refresh_tokens db ++
                      [mk (refresh_tokens_id_seq db + 1) (User.id user)
                          (hash_token (fresh_secret env)) (utc_now env)
                          (utc_now env
                           + timedelta_days (REFRESH_TOKEN_EXPIRE_DAYS settings))
                          None stored_ip
                          (routes_auth.user_agent_of request)])%list)
                  (refresh_tokens_id_seq db + 1).
Proof.
  intros Hu. unfold routes_auth.refresh, bind.
  destruct (AuthService.validate_refresh_token s (utc_now env) (local_now env) db)
    as [[user|e] db0] eqn:Hval; [|discriminate].
  apply validate_refresh_token_Ok in Hval.
  destruct Hval as (-> & row & Hact & Huser).
  destruct (first_filter_Some _ _ _ Hact) as [Hin Hrow].
  apply active_where_true in Hrow. destruct Hrow as (Hh & _ & _).
  unfold AuthService.create_refresh_token.
  destruct (save_token _ _ _ _ _ _ db) as [[row'|e] db1] eqn:Hsave;
    [|discriminate].
  apply save_token_Ok in Hsave.
  destruct Hsave as (stored_ip & _ & -> & -> & Hfresh & Hid & _).
  unfold AuthService.revoke_refresh_token. cbn [refresh_tokens set_refresh_tokens users].
  assert (Hget : get_by_token_hash (hash_token s)
                   (refresh_tokens db ++
                    [mk (refresh_tokens_id_seq db + 1) (User.id user)
                        (hash_token (fresh_secret env)) (utc_now env)
                        (utc_now env
                         + timedelta_days (REFRESH_TOKEN_EXPIRE_DAYS settings))
                        None stored_ip
                        (routes_auth.user_agent_of request)])%list = Some row).
  { unfold get_by_token_hash. rewrite filter_app. rewrite <- Hh.
    rewrite (filter_unique_key token_hash _ row Hu Hin). reflexivity. }
  rewrite Hget. unfold ret.
  cbn [refresh_tokens set_refresh_tokens users refresh_tokens_id_seq].
  intros [= <- <-]. exists row, user, stored_ip. repeat split; auto.
Qed.
End Refresh.

(** C2. After a successful [refresh] presenting the secret [s], the row
    stored under the hash of [s] is revoked: looking it up as an active
    token returns nothing at any time, and a later [refresh] with [s] fails
    with [Unauthorized].  The pair that was issued is valid: the new refresh
    secret resolves to an active, unrevoked row of the same user until its
    expiry and passes validation, and the new access token is accepted for
    that user until its own expiry, as long as the ledger does not list its
    jti. *)
Theorem refresh_rotation_single_use :
  forall (settings : Settings) (hasher : Hasher) (s : string)
         (request : option Request) (env : Ambient) (db : Db)
         (resp : TokenResponse) (db' : Db),
    unique_token_hash (refresh_tokens db) ->
    routes_auth.refresh settings s request env db = (Ok resp, db') ->
    (exists row,
        RefreshTokenRepository.get_by_token_hash (hash_token s) (refresh_tokens db')
        = Some row
        /\ RefreshToken.revoked_at row = Some (local_now env))
    /\ (forall t,
          RefreshTokenRepository.get_active_token (hash_token s) t (refresh_tokens db')
          = None)
    /\ (forall request2 env2,
          fst (routes_auth.refresh settings s request2 env2 db') = Raise Unauthorized)
    /\ exists user row',
        In user (users db)
        /\ refresh_token resp = fresh_secret env
        /\ RefreshToken.user_id row' = User.id user
        /\ RefreshToken.revoked_at row' = None
        /\ RefreshToken.expired_at row'
           = utc_now env + timedelta_days (REFRESH_TOKEN_EXPIRE_DAYS settings)
        /\ (forall t local,
              t < RefreshToken.expired_at row' ->
              RefreshTokenRepository.get_active_token
                (hash_token (refresh_token resp)) t (refresh_tokens db') = Some row'
              /\ AuthService.validate_refresh_token (refresh_token resp) t local db'
                 = (Ok user, db'))
        /\ (forall ledger t,
              RevocationLedger.is_revoked ledger (fresh_jti env) = false ->
              t < utc_now env + timedelta_minutes (ACCESS_TOKEN_EXPIRE_MINUTES settings) ->
              AuthService.access_token_valid settings ledger t (access_token resp)
              = Ok (User.username user)).
Proof.
  intros settings hasher s request env db resp db' Hu Hok.
  destruct (refresh_Ok settings s request env db resp db' Hu Hok)
    as (row & user & stored_ip & Hin & Hh & Huser & Hfresh & Hkey & -> & ->).
  set (tbl := refresh_tokens db) in *.
  set (row' := RefreshToken.mk (refresh_tokens_id_seq db + 1) (User.id user)
                 (hash_token (fresh_secret env)) (utc_now env)
                 (utc_now env + timedelta_days (REFRESH_TOKEN_EXPIRE_DAYS settings))
                 None stored_ip (routes_auth.user_agent_of request)).
  cbn [refresh_tokens users refresh_token access_token].
  (* the rows stored under the old hash and under the new one *)
  assert (Hold : filter (fun r => String.eqb (RefreshToken.token_hash r) (hash_token s))
                        (RefreshTokenRepository.revoke_token row (local_now env)
                                                             (tbl ++ [row'])%list)
                 = [RefreshTokenRepository.revoke_record (local_now env) row]).
  { rewrite filter_hash_revoke_token, filter_app. rewrite <- Hh.
    rewrite (filter_unique_key RefreshToken.token_hash tbl row Hu Hin).
    assert (Hne : String.eqb (RefreshToken.token_hash row')
                             (RefreshToken.token_hash row) = false).
    { apply String.eqb_neq. intros Heq. apply (Hfresh row Hin). symmetry. exact Heq. }
    cbn [filter]. rewrite Hne. cbn [app map]. rewrite Z.eqb_refl. reflexivity. }
  assert (Hnew : filter (fun r => String.eqb (RefreshToken.token_hash r)
                                             (hash_token (fresh_secret env)))
                        (RefreshTokenRepository.revoke_token row (local_now env)
                                                             (tbl ++ [row'])%list)
                 = [row']).
  { rewrite filter_hash_revoke_token, filter_app.
    rewrite (filter_none _ tbl).
    - cbn [filter app]. unfold row' at 1. cbn [RefreshToken.token_hash].
      rewrite String.eqb_refl. cbn [map].
      assert (Hid : (RefreshToken.id row' =? RefreshToken.id row) = false).
      { apply Z.eqb_neq. pose proof (Hkey row Hin) as Hne.
        unfold row'. cbn [RefreshToken.id]. congruence. }
      rewrite Hid. reflexivity.
    - intros r Hr. apply String.eqb_neq. apply Hfresh. exact Hr. }
  assert (Hgone : forall t,
             RefreshTokenRepository.get_active_token
               (hash_token s) t
               (RefreshTokenRepository.revoke_token row (local_now env)
                                                    (tbl ++ [row'])%list) = None).
  { intros t. rewrite get_active_token_filter, Hold. cbn.
    rewrite andb_false_r. reflexivity. }
  assert (Hby : RefreshTokenRepository.get_by_token_hash
                  (hash_token s)
                  (RefreshTokenRepository.revoke_token row (local_now env)
                                                       (tbl ++ [row'])%list)
                = Some (RefreshTokenRepository.revoke_record (local_now env) row)).
  { unfold RefreshTokenRepository.get_by_token_hash. rewrite Hold. reflexivity. }
  split; [|split; [|split]].
  - eexists. split; [exact Hby|reflexivity].
  - exact Hgone.
  - intros request2 env2. unfold routes_auth.refresh, bind.
    unfold AuthService.validate_refresh_token.
    cbn [refresh_tokens users]. rewrite Hgone, Hby. reflexivity.
  - exists user, row'.
    assert (Huin : In user (users db)).
    { apply first_filter_Some in Huser. tauto. }
    split; [exact Huin|]. repeat (split; [reflexivity|]). split.
    + intros t local Ht.
      assert (Hact : RefreshTokenRepository.get_active_token
                       (hash_token (fresh_secret env)) t
                       (RefreshTokenRepository.revoke_token row (local_now env)
                                                            (tbl ++ [row'])%list)
                     = Some row').
      { rewrite get_active_token_filter, Hnew. cbn [filter].
        unfold row' in Ht. cbn [RefreshToken.expired_at] in Ht.
        apply Z.ltb_lt in Ht. unfold row' at 1 2.
        cbn [RefreshToken.expired_at RefreshToken.revoked_at is_None].
        rewrite Ht. reflexivity. }
      split; [exact Hact|].
      unfold AuthService.validate_refresh_token. cbn [refresh_tokens users].
      rewrite Hact.
      replace (RefreshToken.user_id row') with (User.id user) by reflexivity.
      assert (Hid : User.id user = RefreshToken.user_id row).
      { apply first_filter_Some in Huser. destruct Huser as [_ Huser].
        apply Z.eqb_eq in Huser. exact Huser. }
      rewrite Hid, Huser. reflexivity.
    + intros ledger t Hled Ht.
      unfold AuthService.access_token_valid, AuthService.create_access_token,
        TokenCodec.decode.
      rewrite String.eqb_refl.
      cbn -[RevocationLedger.is_revoked Z.leb Z.add timedelta_minutes].
      destruct (_ <=? t) eqn:E; [apply Z.leb_le in E; lia|].
      cbn [TokenCodec.purpose TokenCodec.jti TokenCodec.sub].
      rewrite Hled. reflexivity.
Qed.

Lemma scenario_db_login_unique :
  unique_token_hash (refresh_tokens Scenario.db_login).
Proof.
  unfold unique_token_hash. simpl. repeat constructor; simpl; tauto.
Qed.

Lemma refresh_rotation_single_use_witness :
  fst (routes_auth.refresh (hasher := Scenario.hasher) Scenario.settings "r1"
         (Some Scenario.request) (Scenario.env Scenario.t0 "r2") Scenario.db_login)
  = Ok (mkTokenResponse
          (AuthService.create_access_token Scenario.settings Scenario.t0 "jti-1" "alice")
          "bearer" "r2")
  /\ RefreshTokenRepository.get_active_token
       "sha256:r1" Scenario.t0
       (refresh_tokens
          (snd (routes_auth.refresh (hasher := Scenario.hasher) Scenario.settings "r1"
                  (Some Scenario.request) (Scenario.env Scenario.t0 "r2")
                  Scenario.db_login)))
     = None
  /\ fst (routes_auth.refresh (hasher := Scenario.hasher) Scenario.settings "r1"
            (Some Scenario.request) (Scenario.env (Scenario.t0 + 1) "r3")
            (snd (routes_auth.refresh (hasher := Scenario.hasher) Scenario.settings "r1"
                    (Some Scenario.request) (Scenario.env Scenario.t0 "r2")
                    Scenario.db_login)))
     = Raise Unauthorized.
Proof.
  destruct (refresh_rotation_single_use
              Scenario.settings Scenario.hasher "r1" (Some Scenario.request)
              (Scenario.env Scenario.t0 "r2") Scenario.db_login
              (mkTokenResponse
                 (AuthService.create_access_token
                    Scenario.settings Scenario.t0 "jti-1" "alice")
                 "bearer" "r2")
              (snd (routes_auth.refresh (hasher := Scenario.hasher) Scenario.settings "r1"
                      (Some Scenario.request) (Scenario.env Scenario.t0 "r2")
                      Scenario.db_login))
              scenario_db_login_unique eq_refl)
    as (_ & Hgone & Hagain & _).
  split; [reflexivity|]. split.
  - apply Hgone.
  - apply Hagain.
Defined.

(** C3. When [refresh] is called with a secret whose row is already
    revoked, it fails with [Unauthorized] and issues nothing: the users and
    the stored hashes are the same as before, so no row was added.  Every
    other row of that user that was active at the time of the call is
    revoked with the time of the call, every row that was not such a row is
    left as it was, and afterwards the user has no active refresh row. *)
Theorem refresh_reuse_detection :
  forall (settings : Settings) (hasher : Hasher) (s : string)
         (request : option Request) (env : Ambient) (db : Db) (row : RefreshToken.t),
    unique_token_hash (refresh_tokens db) ->
    primary_key (refresh_tokens db) ->
    RefreshTokenRepository.get_by_token_hash (hash_token s) (refresh_tokens db) = Some row ->
    RefreshToken.revoked_at row <> None ->
    let other_active r :=
      RefreshToken.user_id r = RefreshToken.user_id row
      /\ RefreshToken.id r <> RefreshToken.id row
      /\ utc_now env < RefreshToken.expired_at r
      /\ RefreshToken.revoked_at r = None in
    exists db',
      routes_auth.refresh settings s request env db = (Raise Unauthorized, db')
      /\ users db' = users db
      /\ map RefreshToken.token_hash (refresh_tokens db')
         = map RefreshToken.token_hash (refresh_tokens db)
      /\ (forall r, In r (refresh_tokens db) -> other_active r ->
            In (RefreshToken.set_revoked_at (Some (local_now env)) r) (refresh_tokens db'))
      /\ (forall r, In r (refresh_tokens db) -> ~ other_active r ->
            In r (refresh_tokens db'))
      /\ (forall r', In r' (refresh_tokens db') ->
            RefreshToken.user_id r' = RefreshToken.user_id row ->
            RefreshToken.revoked_at r' <> None
            \/ RefreshToken.expired_at r' <= utc_now env).
Proof.
  intros settings hasher s request env db row Hu Hpk Hget Hrev other_active.
  eexists. split.
  { unfold routes_auth.refresh, bind.
    rewrite (validate_refresh_token_revoked s _ _ db row Hu Hget Hrev). reflexivity. }
  cbn [users refresh_tokens set_refresh_tokens].
  rewrite (revoke_other_active_map row _ _ _ Hpk).
  destruct (get_by_token_hash_Some _ _ _ Hget) as [Hrow _].
  split; [reflexivity|]. split; [|split; [|split]].
  - rewrite map_map. apply map_ext. intros r.
    destruct (AuthService.other_active row (utc_now env) r); reflexivity.
  - intros r Hin Hoa. apply in_map_iff. exists r. split; [|exact Hin].
    apply other_active_true in Hoa. rewrite Hoa. reflexivity.
  - intros r Hin Hoa. apply in_map_iff. exists r. split; [|exact Hin].
    destruct (AuthService.other_active row (utc_now env) r) eqn:E; [|reflexivity].
    apply other_active_true in E. contradiction.
  - intros r' Hin' Huid. apply in_map_iff in Hin'. destruct Hin' as (r & <- & Hin).
    destruct (AuthService.other_active row (utc_now env) r) eqn:E.
    + left. discriminate.
    + destruct (Z.eq_dec (RefreshToken.id r) (RefreshToken.id row)) as [Hid|Hid].
      * left. rewrite (primary_key_inj _ r row Hpk Hin Hrow Hid). exact Hrev.
      * destruct (RefreshToken.revoked_at r) as [t|] eqn:Er; [left; discriminate|].
        right. destruct (Z.lt_ge_cases (utc_now env) (RefreshToken.expired_at r))
          as [Hlt|Hge]; [|exact Hge].
        exfalso.
        assert (AuthService.other_active row (utc_now env) r = true).
        { apply other_active_true. rewrite Er. auto. }
        congruence.
Qed.

Lemma scenario_db_stolen_primary_key :
  primary_key (refresh_tokens Scenario.db_stolen).
Proof.
  unfold primary_key. simpl. repeat constructor; simpl; intuition discriminate.
Qed.

Lemma refresh_reuse_detection_witness :
  exists db',
    routes_auth.refresh (hasher := Scenario.hasher) Scenario.settings "r1"
      (Some Scenario.request) (Scenario.env Scenario.t0 "r3") Scenario.db_stolen
    = (Raise Unauthorized, db')
    /\ In (RefreshToken.set_revoked_at
             (Some Scenario.t0)
             (Scenario.token_row 2 1 "r2" (Scenario.t0 + 6 * Scenario.day) None))
          (refresh_tokens db').
Proof.
  destruct (refresh_reuse_detection
              Scenario.settings Scenario.hasher "r1" (Some Scenario.request)
              (Scenario.env Scenario.t0 "r3") Scenario.db_stolen
              (Scenario.token_row 1 1 "r1" (Scenario.t0 + 6 * Scenario.day)
                                  (Some (Scenario.t0 - Scenario.hour)))
              scenario_db_stolen_unique scenario_db_stolen_primary_key)
    as (db' & Hfail & _ & _ & Hrevoked & _).
  - reflexivity.
  - discriminate.
  - exists db'. split; [exact Hfail|].
    apply (Hrevoked (Scenario.token_row 2 1 "r2" (Scenario.t0 + 6 * Scenario.day) None)).
    + simpl. auto.
    + repeat split; try reflexivity. discriminate.
Defined.

(** ** The schema constraints are kept by every operation *)

Section Schema.
Context (settings : Settings) {hasher : Hasher}.
Import RefreshToken RefreshTokenRepository.
Implicit Types (tbl : list RefreshToken.t).

(** Deleting rows keeps a unique column unique. *)
Lemma kept_rows_distinct {K : Type} (column : RefreshToken.t -> K)
      (keep : RefreshToken.t -> bool) tbl :
  NoDup (map column tbl) -> NoDup (map column (filter keep tbl)).
Proof.
  induction tbl as [|r tbl IH]; cbn [map filter]; [intros _; constructor|].
  rewrite NoDup_cons_iff. intros [Hr Hrest]. specialize (IH Hrest).
  destruct (keep r); cbn [map]; [|exact IH].
  apply NoDup_cons; [|exact IH]. contradict Hr.
  apply in_map_iff in Hr. destruct Hr as (y & <- & Hy).
  apply in_map. apply filter_In in Hy. tauto.
Qed.

Lemma schema_revoke_token row now tbl :
  schema tbl -> schema (revoke_token row now tbl).
Proof.
  unfold schema, primary_key, unique_token_hash.
  rewrite revoke_token_id, revoke_token_token_hash. tauto.
Qed.

Lemma schema_save_token uid h exp ip ua db_now db res db' :
  schema (refresh_tokens db) ->
  save_token uid h exp ip ua db_now db = (res, db') ->
  schema (refresh_tokens db').
Proof.
  intros [Hpk Hu] Hsave. destruct res as [row|e].
  - split; [|exact (save_token_unique_token_hash _ _ _ _ _ _ _ _ _ Hu Hsave)].
    apply save_token_Ok in Hsave.
    destruct Hsave as (stored_ip & _ & -> & -> & _ & Hkey & _).
    cbn [refresh_tokens].
    unfold primary_key in *. rewrite map_app. cbn [map id].
    apply NoDup_app; [exact Hpk|repeat constructor; simpl; tauto|].
    intros x Hx [<-|[]]. apply in_map_iff in Hx. destruct Hx as (r & Hr & Hin).
    exact (Hkey r Hin Hr).
  - apply save_token_Raise in Hsave. destruct Hsave as [_ ->]. split; assumption.
Qed.

Lemma schema_cleanup_expired_tokens now tbl :
  schema tbl -> schema (Sweeper.cleanup_expired_tokens now tbl).
Proof.
  unfold schema, primary_key, unique_token_hash, Sweeper.cleanup_expired_tokens.
  intros [Hpk Hu]. split; apply kept_rows_distinct; assumption.
Qed.

Lemma schema_revoke_other_active row now local tbl :
  schema tbl -> schema (AuthService.revoke_other_active row now local tbl).
Proof.
  unfold AuthService.revoke_other_active.
  generalize (filter (AuthService.other_active row now) tbl) as targets.
  intros targets. revert tbl.
  induction targets as [|r targets IH]; intros tbl Hs; simpl; [exact Hs|].
  apply IH. apply schema_revoke_token. exact Hs.
Qed.

(** Whatever [refresh] answers, the table it leaves meets the schema. *)
Lemma schema_refresh s request env db :
  schema (refresh_tokens db) ->
  schema (refresh_tokens (snd (routes_auth.refresh settings s request env db))).
Proof.
  intros Hs. unfold routes_auth.refresh, bind.
  unfold AuthService.validate_refresh_token.
  destruct (get_active_token _ _ (refresh_tokens db)) as [row|].
  - destruct (AuthService.get_by_id _ (users db)) as [user|]; [|exact Hs].
    unfold AuthService.create_refresh_token.
    destruct (save_token _ _ _ _ _ _ db) as [[row'|e] db1] eqn:Hsave;
      pose proof (schema_save_token _ _ _ _ _ _ _ _ _ Hs Hsave) as Hs1;
      [|exact Hs1].
    unfold AuthService.revoke_refresh_token. cbn [refresh_tokens set_refresh_tokens].
    destruct (get_by_token_hash _ (refresh_tokens db1)) as [row0|]; cbn; [|exact Hs1].
    apply schema_revoke_token. exact Hs1.
  - destruct (get_by_token_hash _ (refresh_tokens db)) as [row|]; [|exact Hs].
    destruct (is_None (revoked_at row)); [exact Hs|].
    cbn. apply schema_revoke_other_active. exact Hs.
Qed.
End Schema.


(** * Further properties of the code *)

(** ** The refresh-token store, once more *)

Lemma filter_filter_implied {A : Type} (p q : A -> bool) (l : list A) :
  (forall x, In x l -> p x = true -> q x = true) ->
  filter p (filter q l) = filter p l.
Proof.
  induction l as [|x l IH]; simpl; intros H; [reflexivity|].
  assert (IH' : filter p (filter q l) = filter p l).
  { apply IH. intros y Hy. apply H. right. exact Hy. }
  destruct (q x) eqn:Hq; simpl.
  - rewrite IH'. reflexivity.
  - destruct (p x) eqn:Hp; [|exact IH'].
    rewrite (H x (or_introl eq_refl) Hp) in Hq. discriminate.
Qed.

(** X1. Once [revoke_token] has been called on a stored row, the token is
    gone for good as far as [get_active_token] is concerned: whatever the
    time asked about, the lookup under the row's hash returns nothing, while
    [get_by_token_hash] still finds the row, now carrying the time of the
    call. *)
Theorem revoke_token_then_never_active :
  forall (tbl : list RefreshToken.t) (r : RefreshToken.t) (now : datetime),
    unique_token_hash tbl -> In r tbl ->
    RefreshTokenRepository.get_by_token_hash
      (RefreshToken.token_hash r) (RefreshTokenRepository.revoke_token r now tbl)
    = Some (RefreshToken.set_revoked_at (Some now) r)
    /\ forall t,
        RefreshTokenRepository.get_active_token
          (RefreshToken.token_hash r) t (RefreshTokenRepository.revoke_token r now tbl)
        = None.
Proof.
  intros tbl r now Hu Hin.
  assert (Hrows : filter (fun x => String.eqb (RefreshToken.token_hash x)
                                              (RefreshToken.token_hash r))
                         (RefreshTokenRepository.revoke_token r now tbl)
                  = [RefreshToken.set_revoked_at (Some now) r]).
  { rewrite filter_hash_revoke_token.
    rewrite (filter_unique_key RefreshToken.token_hash tbl r Hu Hin).
    cbn [map]. rewrite Z.eqb_refl. reflexivity. }
  split.
  - unfold RefreshTokenRepository.get_by_token_hash. rewrite Hrows. reflexivity.
  - intros t. rewrite get_active_token_filter, Hrows. cbn.
    rewrite andb_false_r. reflexivity.
Qed.

Lemma revoke_token_then_never_active_witness :
  RefreshTokenRepository.get_active_token
    "sha256:c" Scenario.t0
    (RefreshTokenRepository.revoke_token
       Scenario.still_active Scenario.t0 [Scenario.revoked_2d; Scenario.still_active])
  = None.
Proof.
  refine (proj2 (revoke_token_then_never_active
                   [Scenario.revoked_2d; Scenario.still_active]
                   Scenario.still_active Scenario.t0 _ _) Scenario.t0).
  - unfold unique_token_hash. simpl. repeat constructor; simpl; intuition discriminate.
  - simpl. auto.
Defined.

(** X2. Revoking one stored token does not touch the others: under any
    other hash, both lookups answer after [revoke_token] exactly what they
    answered before. *)
Theorem revoke_token_leaves_other_tokens :
  forall (tbl : list RefreshToken.t) (r : RefreshToken.t) (now : datetime)
         (token_hash : string) (t : datetime),
    primary_key tbl -> In r tbl -> token_hash <> RefreshToken.token_hash r ->
    RefreshTokenRepository.get_active_token
      token_hash t (RefreshTokenRepository.revoke_token r now tbl)
    = RefreshTokenRepository.get_active_token token_hash t tbl
    /\ RefreshTokenRepository.get_by_token_hash
         token_hash (RefreshTokenRepository.revoke_token r now tbl)
       = RefreshTokenRepository.get_by_token_hash token_hash tbl.
Proof.
  intros tbl r now h t Hpk Hin Hne.
  assert (Hrows : filter (fun x => String.eqb (RefreshToken.token_hash x) h)
                         (RefreshTokenRepository.revoke_token r now tbl)
                  = filter (fun x => String.eqb (RefreshToken.token_hash x) h) tbl).
  { rewrite filter_hash_revoke_token.
    rewrite <- (map_id (filter _ tbl)) at 2. apply map_ext_in.
    intros x Hx. apply filter_In in Hx. destruct Hx as [Hx Hh].
    apply String.eqb_eq in Hh.
    destruct (RefreshToken.id x =? RefreshToken.id r) eqn:E; [|reflexivity].
    apply Z.eqb_eq in E. exfalso. apply Hne.
    rewrite <- Hh. f_equal. apply (primary_key_inj tbl); assumption. }
  split.
  - rewrite !get_active_token_filter, Hrows. reflexivity.
  - unfold RefreshTokenRepository.get_by_token_hash. rewrite Hrows. reflexivity.
Qed.

Lemma revoke_token_leaves_other_tokens_witness :
  RefreshTokenRepository.get_active_token
    "sha256:r2" Scenario.t0
    (RefreshTokenRepository.revoke_token
       (Scenario.token_row 1 1 "r1" (Scenario.t0 + 6 * Scenario.day)
                           (Some (Scenario.t0 - Scenario.hour)))
       Scenario.t0 (refresh_tokens Scenario.db_stolen))
  = RefreshTokenRepository.get_active_token
      "sha256:r2" Scenario.t0 (refresh_tokens Scenario.db_stolen).
Proof.
  refine (proj1 (revoke_token_leaves_other_tokens
                   (refresh_tokens Scenario.db_stolen)
                   (Scenario.token_row 1 1 "r1" (Scenario.t0 + 6 * Scenario.day)
                                       (Some (Scenario.t0 - Scenario.hour)))
                   Scenario.t0 "sha256:r2" Scenario.t0 _ _ _)).
  - exact scenario_db_stolen_primary_key.
  - simpl. auto.
  - discriminate.
Defined.

(** X3. The store never brings a token back by the passing of time alone:
    on an unchanged table, a hash that has no active token at some time has
    none at any later time; and with the hash column unique, the token that
    is active at some time is the answer at every earlier time as well (the
    lookup does not look at [created_at]). *)
Theorem inactive_stays_inactive :
  forall (token_hash : string) (t1 t2 : datetime) (tbl : list RefreshToken.t),
    t1 <= t2 ->
    (RefreshTokenRepository.get_active_token token_hash t1 tbl = None ->
     RefreshTokenRepository.get_active_token token_hash t2 tbl = None)
    /\ (unique_token_hash tbl ->
        forall r,
          RefreshTokenRepository.get_active_token token_hash t2 tbl = Some r ->
          RefreshTokenRepository.get_active_token token_hash t1 tbl = Some r).
Proof.
  intros h t1 t2 tbl Hle. split.
  - unfold RefreshTokenRepository.get_active_token. rewrite !first_filter_None.
    intros H r Hin. specialize (H r Hin).
    destruct (RefreshTokenRepository.active_where h t2 r) eqn:E; [|reflexivity].
    apply active_where_true in E. destruct E as (Hh & Hlt & Hrev).
    assert (RefreshTokenRepository.active_where h t1 r = true).
    { apply active_where_true. repeat split; [exact Hh|lia|exact Hrev]. }
    congruence.
  - intros Hu r H. apply first_filter_Some in H. destruct H as [Hin Hact].
    apply active_where_true in Hact. destruct Hact as (<- & Hlt & Hrev).
    rewrite (get_active_token_unique tbl r t1 Hu Hin).
    assert (Hlt1 : (t1 <? RefreshToken.expired_at r) = true) by (apply Z.ltb_lt; lia).
    rewrite Hlt1, Hrev. reflexivity.
Qed.

Lemma inactive_stays_inactive_witness :
  RefreshTokenRepository.get_active_token
    "sha256:d" (Scenario.t0 + Scenario.day) [Scenario.expired_1h; Scenario.still_active]
  = None.
Proof.
  refine (proj1 (inactive_stays_inactive
                   "sha256:d" Scenario.t0 (Scenario.t0 + Scenario.day)
                   [Scenario.expired_1h; Scenario.still_active] _) _).
  - vm_compute. discriminate.
  - reflexivity.
Defined.

(** X4. The two lookups of the store agree: with the hash column unique,
    the row [get_active_token] returns is the row [get_by_token_hash]
    returns for the same hash; and a hash [get_by_token_hash] does not find
    has no active token at any time. *)
Theorem active_lookup_agrees_with_hash_lookup :
  forall (token_hash : string) (tbl : list RefreshToken.t),
    (unique_token_hash tbl ->
     forall t r,
       RefreshTokenRepository.get_active_token token_hash t tbl = Some r ->
       RefreshTokenRepository.get_by_token_hash token_hash tbl = Some r)
    /\ (RefreshTokenRepository.get_by_token_hash token_hash tbl = None ->
        forall t, RefreshTokenRepository.get_active_token token_hash t tbl = None).
Proof.
  intros h tbl. split.
  - intros Hu t r H. apply first_filter_Some in H. destruct H as [Hin Hact].
    apply active_where_true in Hact. destruct Hact as (<- & _ & _).
    apply get_by_token_hash_unique; assumption.
  - unfold RefreshTokenRepository.get_by_token_hash,
      RefreshTokenRepository.get_active_token.
    rewrite first_filter_None. intros H t. apply first_filter_None.
    intros r Hin. apply active_where_other_hash.
    apply String.eqb_neq. apply H. exact Hin.
Qed.

Lemma active_lookup_agrees_with_hash_lookup_witness :
  RefreshTokenRepository.get_by_token_hash
    "sha256:r2" (refresh_tokens Scenario.db_stolen)
  = Some (Scenario.token_row 2 1 "r2" (Scenario.t0 + 6 * Scenario.day) None).
Proof.
  refine (proj1 (active_lookup_agrees_with_hash_lookup
                   "sha256:r2" (refresh_tokens Scenario.db_stolen))
                scenario_db_stolen_unique Scenario.t0 _ _).
  reflexivity.
Defined.

(** ** The sweeper and the lookups *)

Lemma delete_where_later now later r :
  now <= later ->
  Sweeper.delete_where now (now - timedelta_days 7) r = true ->
  Sweeper.delete_where later (later - timedelta_days 7) r = true.
Proof.
  intros Hle H. apply delete_where_true in H. apply delete_where_true.
  destruct H as [H|(t & Ht & H)]; [left; lia|right; exists t; split; [exact Ht|lia]].
Qed.

Lemma cleanup_after_cleanup earlier later tbl :
  earlier <= later ->
  Sweeper.cleanup_expired_tokens later (Sweeper.cleanup_expired_tokens earlier tbl)
  = Sweeper.cleanup_expired_tokens later tbl.
Proof.
  intros Hle. unfold Sweeper.cleanup_expired_tokens. apply filter_filter_implied.
  intros r _ Hkeep. apply negb_true_iff in Hkeep. apply negb_true_iff.
  destruct (Sweeper.delete_where earlier (earlier - timedelta_days 7) r) eqn:E;
    [|reflexivity].
  rewrite (delete_where_later earlier later r Hle E) in Hkeep. discriminate.
Qed.

(** X5. A sweeper run cannot be seen through [get_active_token]: for every
    hash and every time from the run's [now] on, the lookup answers on the
    swept table what it would have answered had the run not happened (the
    rows a run deletes are rows the lookup ignores). *)
Theorem cleanup_invisible_to_active_lookup :
  forall (now t : datetime) (token_hash : string) (tbl : list RefreshToken.t),
    now <= t ->
    RefreshTokenRepository.get_active_token
      token_hash t (Sweeper.cleanup_expired_tokens now tbl)
    = RefreshTokenRepository.get_active_token token_hash t tbl.
Proof.
  intros now t h tbl Hle.
  unfold RefreshTokenRepository.get_active_token, Sweeper.cleanup_expired_tokens.
  f_equal. apply filter_filter_implied.
  intros r _ Hact. apply active_where_true in Hact. destruct Hact as (_ & Hlt & Hrev).
  apply negb_true_iff.
  destruct (Sweeper.delete_where now (now - timedelta_days 7) r) eqn:E; [|reflexivity].
  apply delete_where_true in E. destruct E as [E|(t' & Ht' & _)]; [lia|congruence].
Qed.

Lemma cleanup_invisible_to_active_lookup_witness :
  RefreshTokenRepository.get_active_token
    "sha256:c" (Scenario.t0 + Scenario.hour)
    (Sweeper.cleanup_expired_tokens
       Scenario.t0 [Scenario.expired_8d; Scenario.revoked_8d; Scenario.still_active])
  = Some Scenario.still_active.
Proof.
  rewrite (cleanup_invisible_to_active_lookup
             Scenario.t0 (Scenario.t0 + Scenario.hour) "sha256:c"
             [Scenario.expired_8d; Scenario.revoked_8d; Scenario.still_active]).
  - reflexivity.
  - vm_compute. discriminate.
Defined.

(** X6. The periodic runs of the sweeper add up to the latest one: whatever
    runs came before, at clock readings not later than the last run's, the
    table after the last run is the table that run alone would have left.
    In particular a run repeated at the same reading changes nothing. *)
Theorem scheduled_cleanups_equal_latest :
  forall (runs : list datetime) (last : datetime) (tbl : list RefreshToken.t),
    (forall t, In t runs -> t <= last) ->
    Sweeper.scheduled_cleanups (runs ++ [last])%list tbl
    = Sweeper.cleanup_expired_tokens last tbl.
Proof.
  intros runs last. induction runs as [|t runs IH]; intros tbl Hall.
  - reflexivity.
  - cbn [app]. unfold Sweeper.scheduled_cleanups in *. cbn [fold_left].
    rewrite IH.
    + apply cleanup_after_cleanup. apply Hall. left. reflexivity.
    + intros t' Ht'. apply Hall. right. exact Ht'.
Qed.

Lemma scheduled_cleanups_equal_latest_witness :
  Sweeper.scheduled_cleanups
    [Scenario.t0; Scenario.t0 + Scenario.hour; Scenario.t0 + 2 * Scenario.hour]
    [Scenario.expired_8d; Scenario.expired_1h; Scenario.revoked_2d; Scenario.still_active]
  = Sweeper.cleanup_expired_tokens
      (Scenario.t0 + 2 * Scenario.hour)
      [Scenario.expired_8d; Scenario.expired_1h; Scenario.revoked_2d; Scenario.still_active].
Proof.
  apply (scheduled_cleanups_equal_latest
           [Scenario.t0; Scenario.t0 + Scenario.hour] (Scenario.t0 + 2 * Scenario.hour)).
  intros t [<-|[<-|[]]]; vm_compute; discriminate.
Defined.

(** X7. The store's own writes keep the schema: if [id] and [token_hash]
    are unique in the table, they still are after [revoke_token], after a
    sweeper run, and after any series of sweeper runs. *)
Theorem store_writes_keep_schema :
  forall (tbl : list RefreshToken.t),
    schema tbl ->
    (forall r now, schema (RefreshTokenRepository.revoke_token r now tbl))
    /\ (forall now, schema (Sweeper.cleanup_expired_tokens now tbl))
    /\ (forall runs, schema (Sweeper.scheduled_cleanups runs tbl)).
Proof.
  intros tbl Hs. split; [|split].
  - intros r now. unfold schema, primary_key, unique_token_hash in *.
    rewrite revoke_token_id, revoke_token_token_hash. exact Hs.
  - intros now. unfold schema, primary_key, unique_token_hash,
      Sweeper.cleanup_expired_tokens in *.
    destruct Hs. split; apply kept_rows_distinct; assumption.
  - intros runs. revert tbl Hs. unfold Sweeper.scheduled_cleanups.
    induction runs as [|t runs IH]; intros tbl Hs; cbn [fold_left]; [exact Hs|].
    apply IH. unfold schema, primary_key, unique_token_hash,
      Sweeper.cleanup_expired_tokens in *.
    destruct Hs. split; apply kept_rows_distinct; assumption.
Qed.

Lemma store_writes_keep_schema_witness :
  schema (Sweeper.cleanup_expired_tokens
            Scenario.t0 (refresh_tokens Scenario.db_stolen)).
Proof.
  refine (proj1 (proj2 (store_writes_keep_schema
                          (refresh_tokens Scenario.db_stolen) _)) Scenario.t0).
  split; [exact scenario_db_stolen_primary_key|exact scenario_db_stolen_unique].
Defined.

(** ** The user repository, once more *)

Section UserRows.
Import User UserRepository.
Implicit Types (tbl : list User.t) (u user : User.t).

Lemma unique_column_inj {A K : Type} (column : A -> K) (l : list A) (a b : A) :
  NoDup (map column l) -> In a l -> In b l -> column a = column b -> a = b.
Proof.
  induction l as [|x l IH]; cbn [map In]; [intros _ []|].
  rewrite NoDup_cons_iff. intros [Hx Hl] Ha Hb Hab.
  destruct Ha as [->|Ha], Hb as [->|Hb]; [reflexivity| | |apply IH; assumption].
  - contradict Hx. rewrite Hab. apply in_map. exact Hb.
  - contradict Hx. rewrite <- Hab. apply in_map. exact Ha.
Qed.

Lemma scalar_one_or_none_Some {A : Type} (rows : list A) (a : A) :
  scalar_one_or_none rows = Ok (Some a) <-> rows = [a].
Proof.
  destruct rows as [|x [|y rows]]; simpl; split; intros H;
    try discriminate; congruence.
Qed.

Lemma scalar_one_or_none_None {A : Type} (rows : list A) :
  scalar_one_or_none rows = Ok None <-> rows = [].
Proof.
  destruct rows as [|x [|y rows]]; simpl; split; intros H;
    try discriminate; congruence.
Qed.

Lemma assign_own f tbl user :
  (forall u, email (f u) = email u) ->
  unique_email tbl -> In user tbl ->
  get_user_by_email (email user) (assign f user tbl) = Ok (Some (f user)).
Proof.
  intros Hf Hu Hin. unfold get_user_by_email, assign.
  rewrite filter_map_preserved.
  - rewrite (filter_unique_key email tbl user Hu Hin). cbn [map].
    rewrite Z.eqb_refl. reflexivity.
  - intros u. destruct (id u =? id user); [rewrite Hf|]; reflexivity.
Qed.

Lemma assign_other f tbl user e :
  (forall u, email (f u) = email u) ->
  users_primary_key tbl -> In user tbl -> e <> email user ->
  get_user_by_email e (assign f user tbl) = get_user_by_email e tbl.
Proof.
  intros Hf Hpk Hin Hne. unfold get_user_by_email, assign.
  rewrite filter_map_preserved.
  - f_equal. rewrite <- (map_id (filter _ tbl)) at 2. apply map_ext_in.
    intros u Hu. apply filter_In in Hu. destruct Hu as [Hu He].
    apply String.eqb_eq in He.
    destruct (id u =? id user) eqn:E; [|reflexivity].
    apply Z.eqb_eq in E. exfalso. apply Hne. rewrite <- He. f_equal.
    apply (unique_column_inj id tbl); assumption.
  - intros u. destruct (id u =? id user); [rewrite Hf|]; reflexivity.
Qed.

Lemma assign_email f tbl user :
  (forall u, email (f u) = email u) -> map email (assign f user tbl) = map email tbl.
Proof.
  intros Hf. unfold assign. rewrite map_map. apply map_ext.
  intros u. destruct (id u =? id user); [apply Hf|reflexivity].
Qed.

Lemma assign_id f tbl user :
  (forall u, id (f u) = id u) -> map id (assign f user tbl) = map id tbl.
Proof.
  intros Hf. unfold assign. rewrite map_map. apply map_ext.
  intros u. destruct (id u =? id user); [apply Hf|reflexivity].
Qed.
End UserRows.

Lemma assign_assign (f g : User.t -> User.t) (tbl : list User.t) (user user' : User.t) :
  User.id user' = User.id user -> (forall u, User.id (f u) = User.id u) ->
  assign g user' (assign f user tbl) = assign (fun u => g (f u)) user tbl.
Proof.
  intros Hid Hf. unfold assign. rewrite map_map. apply map_ext. intros u.
  rewrite Hid. destruct (User.id u =? User.id user) eqn:E.
  - rewrite Hf, E. reflexivity.
  - rewrite E. reflexivity.
Qed.

(** X8. A user name with the character U+0000 cannot be sent to the
    database, and [get_by_username] raises [DBAPIError] for it.  For every
    other name, with the [username] column unique, [get_by_username] does
    not raise and is exact: it returns a user precisely when that user is
    stored under the given name, and returns [None] precisely when no stored
    user has that name. *)
Theorem get_by_username_exact :
  forall (tbl : list User.t) (username : string),
    unique_username tbl ->
    (has_nul username = false ->
     (forall u, UserRepository.get_by_username username tbl = Ok (Some u)
                <-> In u tbl /\ User.username u = username)
     /\ (UserRepository.get_by_username username tbl = Ok None
         <-> forall u, In u tbl -> User.username u <> username)
     /\ (forall e, UserRepository.get_by_username username tbl <> Raise e))
    /\ (has_nul username = true ->
        UserRepository.get_by_username username tbl = Raise DBAPIError).
Proof.
  intros tbl name Hu. unfold UserRepository.get_by_username. split;
    intros Hnul; rewrite Hnul; [|reflexivity].
  assert (Hsome : forall u,
             scalar_one_or_none
               (filter (fun u => String.eqb (User.username u) name) tbl) = Ok (Some u)
             <-> In u tbl /\ User.username u = name).
  { intros u. rewrite scalar_one_or_none_Some. split.
    - intros H.
      assert (Hin : In u (filter (fun u => String.eqb (User.username u) name) tbl))
        by (rewrite H; left; reflexivity).
      apply filter_In in Hin. destruct Hin as [Hin He].
      apply String.eqb_eq in He. auto.
    - intros [Hin <-]. apply (filter_unique_key User.username tbl u Hu Hin). }
  assert (Hnone : scalar_one_or_none
                    (filter (fun u => String.eqb (User.username u) name) tbl) = Ok None
                  <-> forall u, In u tbl -> User.username u <> name).
  { rewrite scalar_one_or_none_None. split.
    - intros H u Hin He.
      assert (Hf : In u (filter (fun u => String.eqb (User.username u) name) tbl)).
      { apply filter_In. split; [exact Hin|]. apply String.eqb_eq. exact He. }
      rewrite H in Hf. exact Hf.
    - intros H. apply filter_none. intros u Hin. apply String.eqb_neq. auto. }
  split; [exact Hsome|]. split; [exact Hnone|].
  intros e He.
  destruct (filter (fun u => String.eqb (User.username u) name) tbl) as [|u rows] eqn:Hrows.
  - discriminate.
  - assert (Hin : In u (filter (fun u => String.eqb (User.username u) name) tbl))
      by (rewrite Hrows; left; reflexivity).
    apply filter_In in Hin. destruct Hin as [Hin Hn]. apply String.eqb_eq in Hn.
    assert (Hok : scalar_one_or_none (u :: rows) = Ok (Some u))
      by (apply Hsome; auto).
    rewrite Hok in He. discriminate.
Qed.

Lemma samples_users_unique_username : unique_username Samples.users_ab.
Proof.
  unfold unique_username. simpl. repeat constructor; simpl; intuition discriminate.
Qed.

Lemma samples_users_unique_email : unique_email Samples.users_ab.
Proof.
  unfold unique_email. simpl. repeat constructor; simpl; intuition discriminate.
Qed.

Lemma samples_users_primary_key : users_primary_key Samples.users_ab.
Proof.
  unfold users_primary_key. simpl. repeat constructor; simpl; intuition discriminate.
Qed.

Lemma get_by_username_exact_witness :
  UserRepository.get_by_username "bob" Samples.users_ab = Ok (Some Samples.bob)
  /\ UserRepository.get_by_username "carol" Samples.users_ab = Ok None.
Proof.
  destruct (get_by_username_exact Samples.users_ab "bob" samples_users_unique_username)
    as (Hbob & _).
  destruct (Hbob eq_refl) as (Hsome & _ & _).
  destruct (get_by_username_exact Samples.users_ab "carol" samples_users_unique_username)
    as (Hcarol & _).
  destruct (Hcarol eq_refl) as (_ & Hnone & _).
  split.
  - apply Hsome. split; [simpl; auto|reflexivity].
  - apply Hnone. simpl. intros u [<-|[<-|[]]]; discriminate.
Defined.

(** X9. [update_password] stores what it returns: it hands back the user
    with the new digest and nothing else changed, a lookup of that user's
    address afterwards returns exactly this user, and a lookup of any other
    address answers as before; the stored ids and addresses are the same. *)
Theorem update_password_round_trip :
  forall (tbl : list User.t) (user : User.t) (new_hashed_password : string),
    unique_email tbl -> users_primary_key tbl -> In user tbl ->
    let updated := fst (UserRepository.update_password user new_hashed_password tbl) in
    let tbl' := snd (UserRepository.update_password user new_hashed_password tbl) in
    updated = User.set_hash_password new_hashed_password user
    /\ UserRepository.get_user_by_email (User.email user) tbl' = Ok (Some updated)
    /\ (forall e, e <> User.email user ->
          UserRepository.get_user_by_email e tbl' = UserRepository.get_user_by_email e tbl)
    /\ map User.id tbl' = map User.id tbl
    /\ map User.email tbl' = map User.email tbl.
Proof.
  intros tbl user h Hu Hpk Hin updated tbl'. subst updated tbl'.
  change (snd (UserRepository.update_password user h tbl))
    with (assign (User.set_hash_password h) user tbl).
  cbn [fst UserRepository.update_password].
  split; [reflexivity|]. split; [|split; [|split]].
  - apply assign_own; auto.
  - intros e He. apply assign_other; auto.
  - apply assign_id. reflexivity.
  - apply assign_email. reflexivity.
Qed.

Lemma update_password_round_trip_witness :
  UserRepository.get_user_by_email
    "bob@x.com" (snd (UserRepository.update_password Samples.bob "bcrypt:s9:New" Samples.users_ab))
  = Ok (Some (User.set_hash_password "bcrypt:s9:New" Samples.bob))
  /\ UserRepository.get_user_by_email
       "alice@x.com"
       (snd (UserRepository.update_password Samples.bob "bcrypt:s9:New" Samples.users_ab))
     = UserRepository.get_user_by_email "alice@x.com" Samples.users_ab.
Proof.
  destruct (update_password_round_trip
              Samples.users_ab Samples.bob "bcrypt:s9:New"
              samples_users_unique_email samples_users_primary_key)
    as (_ & Hown & Hother & _).
  - simpl. auto.
  - split; [exact Hown|]. apply Hother. discriminate.
Defined.



Lemma varchar_fits n s :
  has_nul s = false -> (char_length s <= n)%nat -> varchar n s = Ok s.
Proof.
  intros Hnul Hlen. unfold varchar. rewrite Hnul.
  apply Nat.leb_le in Hlen. rewrite Hlen. reflexivity.
Qed.

Lemma varchar_too_long n s :
  (n < char_length s)%nat -> all_spaces (snd (take_chars s n)) = false ->
  varchar n s = Raise DBAPIError.
Proof.
  intros Hlen Hsp. unfold varchar. destruct (has_nul s); [reflexivity|].
  apply Nat.leb_gt in Hlen. rewrite Hlen.
  destruct (take_chars s n) as [kept excess]. cbn [snd] in Hsp. rewrite Hsp.
  reflexivity.
Qed.

(** X11. [update_avatar_url] and the [String(255)] column it writes.  A URL
    without U+0000 and of at most 255 characters is stored as it is; a URL
    of more than 255 characters with anything but spaces beyond the 255th
    is refused: the call raises [DBAPIError] and the table stays as it was.
    For a stored address and a URL the column takes, the call returns the
    user with the avatar as stored and nothing else changed, a lookup
    afterwards returns that same user, other addresses are looked up as
    before, and the update overwrites any update made before it.  For an
    address nobody has it raises [AttributeError], and for an address with
    U+0000 [DBAPIError], leaving the table as it was. *)
Theorem update_avatar_url_last_write_wins :
  forall (tbl : list User.t) (email : string),
    unique_email tbl -> users_primary_key tbl ->
    (forall url, has_nul url = false -> (char_length url <= 255)%nat ->
                 varchar 255 url = Ok url)
    /\ (forall url, (255 < char_length url)%nat ->
                    all_spaces (snd (take_chars url 255)) = false ->
                    varchar 255 url = Raise DBAPIError)
    /\ (has_nul email = false ->
        forall user, In user tbl -> User.email user = email ->
          (forall url stored, varchar 255 url = Ok stored ->
             fst (UserRepository.update_avatar_url email url tbl)
             = Ok (User.set_avatar (Some stored) user)
             /\ UserRepository.get_user_by_email
                  email (snd (UserRepository.update_avatar_url email url tbl))
                = Ok (Some (User.set_avatar (Some stored) user))
             /\ (forall e, e <> email ->
                   UserRepository.get_user_by_email
                     e (snd (UserRepository.update_avatar_url email url tbl))
                   = UserRepository.get_user_by_email e tbl)
             /\ (forall earlier,
                   UserRepository.update_avatar_url
                     email url (snd (UserRepository.update_avatar_url email earlier tbl))
                   = UserRepository.update_avatar_url email url tbl))
          /\ (forall url e, varchar 255 url = Raise e ->
                UserRepository.update_avatar_url email url tbl = (Raise e, tbl)))
    /\ (has_nul email = false ->
        (forall user, In user tbl -> User.email user <> email) ->
        forall url,
          snd (UserRepository.update_avatar_url email url tbl) = tbl
          /\ exists message,
              fst (UserRepository.update_avatar_url email url tbl)
              = Raise (AttributeError message))
    /\ (has_nul email = true ->
        forall url,
          UserRepository.update_avatar_url email url tbl = (Raise DBAPIError, tbl)).
Proof.
  intros tbl e Hu Hpk.
  split; [intros url; apply varchar_fits|].
  split; [intros url; apply varchar_too_long|].
  split; [|split].
  - intros Hnul user Hin <-.
    assert (Hstep : forall url stored,
               varchar 255 url = Ok stored ->
               UserRepository.update_avatar_url (User.email user) url tbl
               = (Ok (User.set_avatar (Some stored) user),
                  assign (User.set_avatar (Some stored)) user tbl)).
    { intros url stored Hv. unfold UserRepository.update_avatar_url.
      rewrite Hnul, (get_user_by_email_unique tbl user Hu Hin), Hv. reflexivity. }
    assert (Hfail : forall url e0,
               varchar 255 url = Raise e0 ->
               UserRepository.update_avatar_url (User.email user) url tbl
               = (Raise e0, tbl)).
    { intros url e0 Hv. unfold UserRepository.update_avatar_url.
      rewrite Hnul, (get_user_by_email_unique tbl user Hu Hin), Hv. reflexivity. }
    split; [|exact Hfail].
    intros url stored Hv. rewrite (Hstep url stored Hv). cbn [fst snd].
    split; [reflexivity|]. split; [apply assign_own; auto|]. split.
    + intros e He. apply assign_other; auto.
    + intros earlier. destruct (varchar 255 earlier) as [s1|e1] eqn:Hv1.
      * rewrite (Hstep earlier s1 Hv1). cbn [snd].
        unfold UserRepository.update_avatar_url at 1. rewrite Hnul.
        rewrite (assign_own (User.set_avatar (Some s1)) tbl user); auto.
        rewrite Hv. f_equal.
        change (map (fun u => if User.id u =? User.id (User.set_avatar (Some s1) user)
                              then User.set_avatar (Some stored) u else u)
                    (assign (User.set_avatar (Some s1)) user tbl))
          with (assign (User.set_avatar (Some stored)) (User.set_avatar (Some s1) user)
                       (assign (User.set_avatar (Some s1)) user tbl)).
        rewrite assign_assign; reflexivity.
      * rewrite (Hfail earlier e1 Hv1). cbn [snd]. apply Hstep. exact Hv.
  - intros Hnul Habs url. unfold UserRepository.update_avatar_url.
    rewrite Hnul, (get_user_by_email_absent tbl e Habs). cbn [fst snd].
    split; [reflexivity|]. eexists. reflexivity.
  - intros Hnul url. unfold UserRepository.update_avatar_url. rewrite Hnul.
    reflexivity.
Qed.

Lemma update_avatar_url_last_write_wins_witness :
  fst (UserRepository.update_avatar_url "bob@x.com" "http://cdn/b.png" Samples.users_ab)
  = Ok (User.set_avatar (Some "http://cdn/b.png") Samples.bob)
  /\ snd (UserRepository.update_avatar_url "carol@x.com" "http://cdn/c.png" Samples.users_ab)
     = Samples.users_ab
  /\ UserRepository.update_avatar_url "bob@x.com" Samples.long_url Samples.users_ab
     = (Raise DBAPIError, Samples.users_ab).
Proof.
  destruct (update_avatar_url_last_write_wins
              Samples.users_ab "bob@x.com"
              samples_users_unique_email samples_users_primary_key)
    as (_ & _ & Hknown & _).
  destruct (update_avatar_url_last_write_wins
              Samples.users_ab "carol@x.com"
              samples_users_unique_email samples_users_primary_key)
    as (_ & _ & _ & Hunknown & _).
  destruct (Hknown eq_refl Samples.bob) as (Hstored & Hrefused);
    [simpl; auto|reflexivity|].
  split; [|split].
  - apply (Hstored "http://cdn/b.png" "http://cdn/b.png"). reflexivity.
  - apply (Hunknown eq_refl).
    simpl. intros u [<-|[<-|[]]]; discriminate.
  - apply Hrefused. vm_compute. reflexivity.
Defined.

(** ** The routes, once more *)

(** X12. [request_email] answers without error only for an address the
    service finds.  For a confirmed user it answers that the address is
    already confirmed and queues nothing; for an unconfirmed user it answers
    "Check your email" and queues exactly one message, to the stored address
    and name with the request's base URL.  An exception of the lookup is
    passed on. *)
Theorem request_email_outcomes :
  forall (user_service : routes_users.UserService) (body_email : string)
         (request : Request),
    (forall u, routes_users.get_user_by_email user_service body_email = Ok (Some u) ->
       routes_users.request_email body_email request user_service
       = if User.confirmed u
         then Ok ("Your email already confirmed", [])
         else Ok ("Check your email",
                  [send_email (User.email u) (User.username u)
                              (Host (base_url request))]))
    /\ (forall message tasks,
          routes_users.request_email body_email request user_service
          = Ok (message, tasks) ->
          exists u,
            routes_users.get_user_by_email user_service body_email = Ok (Some u)
            /\ (message = "Check your email" <-> User.confirmed u = false)
            /\ (tasks = [] <-> User.confirmed u = true))
    /\ (forall e, routes_users.get_user_by_email user_service body_email = Raise e ->
          routes_users.request_email body_email request user_service = Raise e).
Proof.
  intros us e rq. unfold routes_users.request_email.
  destruct (routes_users.get_user_by_email us e) as [[u|]|ex]; cbn.
  - split; [|split].
    + intros u' [= <-]. destruct (User.confirmed u); reflexivity.
    + intros message tasks H. exists u. split; [reflexivity|].
      destruct (User.confirmed u); injection H as <- <-;
        split; split; intros H; try reflexivity; discriminate.
    + discriminate.
  - split; [|split]; [discriminate|discriminate|discriminate].
  - split; [|split]; [discriminate|discriminate|].
    intros e' [= <-]. reflexivity.
Qed.

Lemma request_email_outcomes_witness :
  routes_users.request_email
    "bob@x.com" Scenario.request (routes_users.user_service_over Samples.db_ab)
  = Ok ("Check your email",
        [send_email "bob@x.com" "bob" (Host "http://host/")]).
Proof.
  refine (proj1 (request_email_outcomes
                   (routes_users.user_service_over Samples.db_ab)
                   "bob@x.com" Scenario.request) Samples.bob _).
  reflexivity.
Defined.



(** X14. [reset_password] writes nothing but the password digest: whatever
    the token, the password and the outcome, the refresh tokens in the
    database are the same rows afterwards (a reset does not revoke any
    session), and the users keep their ids, names, addresses, roles,
    avatars and confirmation flags; when the call raises, the whole
    database is as it was. *)
Theorem reset_password_writes_only_the_digest :
  forall (settings : Settings) (hasher : Hasher) (token : TokenCodec.token)
         (new_password : string) (env : Ambient) (db : Db),
    let outcome := routes_auth.reset_password settings token new_password env db in
    refresh_tokens (snd outcome) = refresh_tokens db
    /\ map (fun u => (User.id u, User.username u, User.email u,
                      User.role u, User.avatar u, User.confirmed u))
           (users (snd outcome))
       = map (fun u => (User.id u, User.username u, User.email u,
                        User.role u, User.avatar u, User.confirmed u))
             (users db)
    /\ (forall e, fst outcome = Raise e -> snd outcome = db).
Proof.
  intros settings hasher token pw env db outcome. subst outcome.
  unfold routes_auth.reset_password, bind, lift, raise.
  destruct (AuthService.decode_reset_token settings token (utc_now env)) as [e|ex];
    [|cbn; auto].
  destruct (UserRepository.get_user_by_email e (users db)) as [[user|]|ex];
    [|cbn; auto|cbn; auto].
  cbn. split; [reflexivity|]. split; [|discriminate].
  rewrite map_map. apply map_ext. intros u.
  destruct (User.id u =? User.id user); reflexivity.
Qed.

(** X15. A requested reset can be carried out.  For a registered address
    [request_password_reset] queues one message whose link carries a token,
    and that token, presented to [reset_password] before the token lifetime
    has passed since the request, is accepted: the user is then stored with
    the digest of the new password.  Presented when the lifetime has passed,
    it is refused with [Expired] and the database stays as it was. *)
Theorem requested_reset_token_is_accepted :
  forall (settings : Settings) (hasher : Hasher) (reset_token_ttl : Z)
         (body_email : string) (request : Request) (env env' : Ambient)
         (new_password : string) (db : Db) (user : User.t),
    unique_email (users db) -> In user (users db) -> User.email user = body_email ->
    exists token,
      routes_auth.request_password_reset settings reset_token_ttl body_email request env db
      = Ok ("Password reset instructions sent to your email",
            [send_email (User.email user) (User.username user)
                        (ResetLink (base_url request) token)])
      /\ (utc_now env' < utc_now env + reset_token_ttl ->
          exists db',
            routes_auth.reset_password settings token new_password env' db
            = (Ok "Password has been successfully reset", db')
            /\ UserRepository.get_user_by_email body_email (users db')
               = Ok (Some (User.set_hash_password
                             (_hash_password (fresh_salt env') new_password) user)))
      /\ (utc_now env + reset_token_ttl <= utc_now env' ->
          routes_auth.reset_password settings token new_password env' db
          = (Raise Expired, db)).
Proof.
  intros settings hasher ttl e rq env env' pw db user Hu Hin He.
  exists (AuthService.create_reset_token settings ttl (User.email user) (utc_now env)).
  split; [|split].
  - unfold routes_auth.request_password_reset. rewrite <- He.
    rewrite (get_user_by_email_unique _ _ Hu Hin). reflexivity.
  - intros Hlt. eexists. split.
    + apply (reset_password_Ok settings
               (TokenCodec.mkClaims (User.email user) "reset" (utc_now env)
                                    (utc_now env + ttl) "")
               pw env' db user); auto.
    + cbn [users set_users snd UserRepository.update_password]. rewrite <- He.
      apply assign_own; auto.
  - intros Hle. unfold routes_auth.reset_password, bind, lift.
    unfold AuthService.create_reset_token, TokenCodec.issue_action.
    rewrite (decode_reset_token_Expired
               settings
               (TokenCodec.mkClaims (User.email user) "reset" (utc_now env)
                                    (utc_now env + ttl) "")
               (utc_now env') Hle).
    reflexivity.
Qed.

Lemma requested_reset_token_is_accepted_witness :
  exists token db',
    routes_auth.request_password_reset
      Scenario.settings Scenario.hour "alice@x.com" Scenario.request
      (Scenario.env Scenario.t0 "r") Scenario.db_login
    = Ok ("Password reset instructions sent to your email",
          [send_email "alice@x.com" "alice" (ResetLink "http://host/" token)])
    /\ routes_auth.reset_password (hasher := Scenario.hasher)
         Scenario.settings token "Hunter2" (Scenario.env (Scenario.t0 + 1) "r")
         Scenario.db_login
       = (Ok "Password has been successfully reset", db').
Proof.
  destruct (requested_reset_token_is_accepted
              Scenario.settings Scenario.hasher Scenario.hour "alice@x.com"
              Scenario.request (Scenario.env Scenario.t0 "r")
              (Scenario.env (Scenario.t0 + 1) "r") "Hunter2"
              Scenario.db_login Scenario.alice scenario_db_login_unique_email)
    as (token & Hreq & Hok & _).
  - simpl. auto.
  - reflexivity.
  - destruct Hok as (db' & Hreset & _); [reflexivity|].
    exists token, db'. split; assumption.
Defined.

(** X16. [healthchecker] answers with its welcome exactly when the probe
    query yields a row.  In every other case, the probe yielding no row
    included, the caller gets 500 "Error connecting to the database": the
    "Database is not configured correctly" error raised inside the [try]
    block is caught by the handler's own [except] clause, so it is printed
    but never reaches the caller. *)
Theorem healthchecker_masks_configuration_error :
  forall (select_1 : result (option Z)),
    (fst (main.healthchecker select_1) = Ok "Welcome to FastAPI!"
     <-> exists row, select_1 = Ok (Some row))
    /\ ((forall row, select_1 <> Ok (Some row)) ->
        fst (main.healthchecker select_1)
        = Raise (HTTPException 500 "Error connecting to the database"))
    /\ fst (main.healthchecker select_1)
       <> Raise (HTTPException 500 "Database is not configured correctly")
    /\ (select_1 = Ok None ->
        main.healthchecker select_1
        = (Raise (HTTPException 500 "Error connecting to the database"),
           [HTTPException 500 "Database is not configured correctly"])).
Proof.
  intros [[row|]|e]; cbn; repeat split; try discriminate; try reflexivity.
  - intros _. exists row. reflexivity.
  - intros H. elim (H row). reflexivity.
  - intros (row & H). discriminate.
  - intros (row & H). discriminate.
Qed.

Lemma healthchecker_masks_configuration_error_witness :
  fst (main.healthchecker (Raise IntegrityError))
  = Raise (HTTPException 500 "Error connecting to the database").
Proof.
  refine (proj1 (proj2 (healthchecker_masks_configuration_error
                          (Raise IntegrityError))) _).
  intros row. discriminate.
Defined.

(** ** Contacts *)

Section Contacts.
Import Contact ContactRepository.
Implicit Types (tbl : list Contact.t) (c : Contact.t) (user : User.t).

Lemma owned_by_true user c :
  owned_by user c = true <-> user_id c = Some (User.id user).
Proof.
  unfold owned_by. destruct (user_id c) as [uid|].
  - rewrite Z.eqb_eq. split; congruence.
  - split; discriminate.
Qed.

(** With [id] the primary key, the rows a lookup by id selects. *)
Lemma rows_by_id contact_id user tbl :
  contacts_primary_key tbl ->
  filter (fun c => (id c =? contact_id) && owned_by user c) tbl =
  match find (fun c => id c =? contact_id) tbl with
  | Some c => if owned_by user c then [c] else []
  | None => []
  end.
Proof.
  unfold contacts_primary_key.
  induction tbl as [|x tbl IH]; cbn [map filter find]; [reflexivity|].
  rewrite NoDup_cons_iff. intros [Hx Hnd].
  destruct (id x =? contact_id) eqn:E; cbn [andb].
  - apply Z.eqb_eq in E.
    assert (Hrest : filter (fun c => (id c =? contact_id) && owned_by user c) tbl = []).
    { apply filter_none. intros c Hc. apply andb_false_iff. left.
      apply Z.eqb_neq. intros Hid. apply Hx. rewrite E, <- Hid. apply in_map. exact Hc. }
    rewrite Hrest. destruct (owned_by user x); reflexivity.
  - apply IH. exact Hnd.
Qed.

Lemma find_by_id_Some contact_id tbl c :
  contacts_primary_key tbl ->
  (find (fun c => id c =? contact_id) tbl = Some c <-> In c tbl /\ id c = contact_id).
Proof.
  intros Hpk. split.
  - intros H. apply find_some in H. rewrite Z.eqb_eq in H. exact H.
  - intros [Hin Hid].
    destruct (find (fun c => id c =? contact_id) tbl) as [c'|] eqn:E.
    + apply find_some in E. destruct E as [Hin' Hid']. apply Z.eqb_eq in Hid'.
      f_equal. apply (unique_column_inj id tbl); [exact Hpk| | |congruence]; assumption.
    + pose proof (find_none _ _ E c Hin) as H. cbn in H.
      apply Z.eqb_neq in H. contradiction.
Qed.
End Contacts.

Lemma get_contact_by_id_in_range tbl contact_id user :
  int32 contact_id = true -> int32 (User.id user) = true ->
  ContactRepository.get_contact_by_id contact_id user tbl =
  scalar_one_or_none
    (filter (fun c => (Contact.id c =? contact_id)
                      && ContactRepository.owned_by user c) tbl).
Proof.
  intros H1 H2. unfold ContactRepository.get_contact_by_id. rewrite H1, H2. reflexivity.
Qed.

Lemma get_contact_by_id_out_of_range tbl contact_id user :
  int32 contact_id = false \/ int32 (User.id user) = false ->
  ContactRepository.get_contact_by_id contact_id user tbl = Raise DBAPIError.
Proof.
  intros H. unfold ContactRepository.get_contact_by_id.
  destruct H as [H|H]; rewrite H; [|rewrite andb_false_r]; reflexivity.
Qed.

Lemma get_contact_by_id_owner tbl contact_id user c :
  int32 contact_id = true -> int32 (User.id user) = true ->
  contacts_primary_key tbl ->
  In c tbl -> Contact.id c = contact_id -> Contact.user_id c = Some (User.id user) ->
  ContactRepository.get_contact_by_id contact_id user tbl = Ok (Some c).
Proof.
  intros H1 H2 Hpk Hin Hid Hown. rewrite (get_contact_by_id_in_range _ _ _ H1 H2).
  rewrite (rows_by_id contact_id user tbl Hpk).
  rewrite (proj2 (find_by_id_Some contact_id tbl c Hpk) (conj Hin Hid)).
  rewrite (proj2 (owned_by_true user c) Hown). reflexivity.
Qed.

Lemma get_contact_by_id_nobody tbl contact_id user :
  int32 contact_id = true -> int32 (User.id user) = true ->
  (forall c, In c tbl -> Contact.id c = contact_id ->
             Contact.user_id c <> Some (User.id user)) ->
  ContactRepository.get_contact_by_id contact_id user tbl = Ok None.
Proof.
  intros H1 H2 H. rewrite (get_contact_by_id_in_range _ _ _ H1 H2).
  rewrite filter_none; [reflexivity|].
  intros c Hin. destruct (Contact.id c =? contact_id) eqn:E; [|reflexivity].
  apply Z.eqb_eq in E. cbn [andb].
  destruct (ContactRepository.owned_by user c) eqn:Ho; [|reflexivity].
  apply owned_by_true in Ho. elim (H c Hin E Ho).
Qed.

(** X17. [get_contact_by_id] hands out a contact to its owner only.  The
    contact id and the user's id are sent as 32-bit integers: when either is
    outside that range the call raises [DBAPIError].  Otherwise, with [id]
    the primary key, it does not raise; it returns a contact exactly when
    that contact is stored under the given id and its [user_id] is the
    asking user's; for an id that is absent, or that belongs to another user
    or to nobody, it returns [None]. *)
Theorem get_contact_by_id_owner_only :
  forall (tbl : list Contact.t) (contact_id : Z) (user : User.t),
    contacts_primary_key tbl ->
    (int32 contact_id = true -> int32 (User.id user) = true ->
     (forall c, ContactRepository.get_contact_by_id contact_id user tbl = Ok (Some c)
                <-> In c tbl /\ Contact.id c = contact_id
                    /\ Contact.user_id c = Some (User.id user))
     /\ (ContactRepository.get_contact_by_id contact_id user tbl = Ok None
         <-> forall c, In c tbl -> Contact.id c = contact_id ->
                       Contact.user_id c <> Some (User.id user))
     /\ (forall e, ContactRepository.get_contact_by_id contact_id user tbl <> Raise e))
    /\ (int32 contact_id = false \/ int32 (User.id user) = false ->
        ContactRepository.get_contact_by_id contact_id user tbl = Raise DBAPIError).
Proof.
  intros tbl cid user Hpk. split; [|apply get_contact_by_id_out_of_range].
  intros H1 H2. rewrite (get_contact_by_id_in_range tbl cid user H1 H2).
  rewrite (rows_by_id cid user tbl Hpk).
  destruct (find (fun c => Contact.id c =? cid) tbl) as [c0|] eqn:E.
  - apply (find_by_id_Some cid tbl c0 Hpk) in E. destruct E as [Hin0 Hid0].
    destruct (ContactRepository.owned_by user c0) eqn:Ho; cbn.
    + apply owned_by_true in Ho. split; [|split].
      * intros c. split; [intros [= <-]; auto|].
        intros (Hin & Hid & _). do 2 f_equal.
        apply (unique_column_inj Contact.id tbl); [exact Hpk| | |congruence]; assumption.
      * split; [discriminate|]. intros H. elim (H c0 Hin0 Hid0 Ho).
      * discriminate.
    + split; [|split].
      * intros c. split; [discriminate|]. intros (Hin & Hid & Hown).
        assert (c = c0)
          by (apply (unique_column_inj Contact.id tbl);
              [exact Hpk| | |congruence]; assumption).
        subst c. apply owned_by_true in Hown. congruence.
      * split; [|reflexivity]. intros _ c Hin Hid Hown.
        assert (c = c0)
          by (apply (unique_column_inj Contact.id tbl);
              [exact Hpk| | |congruence]; assumption).
        subst c. apply owned_by_true in Hown. congruence.
      * discriminate.
  - cbn. split; [|split].
    + intros c. split; [discriminate|]. intros (Hin & Hid & _).
      pose proof (find_none _ _ E c Hin) as H. cbn in H.
      apply Z.eqb_neq in H. contradiction.
    + split; [|reflexivity]. intros _ c Hin Hid.
      pose proof (find_none _ _ E c Hin) as H. cbn in H.
      apply Z.eqb_neq in H. contradiction.
    + discriminate.
Qed.

Lemma samples_book_primary_key : contacts_primary_key Samples.book.
Proof.
  unfold contacts_primary_key. simpl. repeat constructor; simpl; intuition discriminate.
Qed.

Lemma get_contact_by_id_owner_only_witness :
  ContactRepository.get_contact_by_id 4 Samples.bob Samples.book = Ok (Some Samples.bea)
  /\ ContactRepository.get_contact_by_id 4 Scenario.alice Samples.book = Ok None
  /\ ContactRepository.get_contact_by_id 2147483648 Samples.bob Samples.book
     = Raise DBAPIError.
Proof.
  destruct (get_contact_by_id_owner_only Samples.book 4 Samples.bob
                                         samples_book_primary_key) as (Hbob & _).
  destruct (Hbob eq_refl eq_refl) as (Hown & _ & _).
  destruct (get_contact_by_id_owner_only Samples.book 4 Scenario.alice
                                         samples_book_primary_key) as (Halice & _).
  destruct (Halice eq_refl eq_refl) as (_ & Hnot & _).
  destruct (get_contact_by_id_owner_only Samples.book 2147483648 Samples.bob
                                         samples_book_primary_key) as (_ & Hbig).
  split; [|split].
  - apply Hown. repeat split. simpl. auto.
  - apply Hnot. simpl. intros c [<-|[<-|[<-|[<-|[]]]]]; discriminate.
  - apply Hbig. left. reflexivity.
Defined.

(** X18. [remove_contact] deletes for the owner and for nobody else.  With
    the contact id and the user's id in the 32-bit range: when the contact
    with the given id belongs to the asking user, it is returned and it is
    the only row that disappears; afterwards no user finds a contact under
    that id and a second removal returns [None]; when there is no such
    contact, or it belongs to someone else or to nobody, the call returns
    [None] and the table is left as it was.  With either number outside the
    range the call raises [DBAPIError] and the table is left as it was. *)
Theorem remove_contact_owner_only :
  forall (tbl : list Contact.t) (contact_id : Z) (user : User.t),
    contacts_primary_key tbl ->
    let tbl' := snd (ContactRepository.remove_contact contact_id user tbl) in
    (int32 contact_id = true -> int32 (User.id user) = true ->
     (forall c, In c tbl -> Contact.id c = contact_id ->
                Contact.user_id c = Some (User.id user) ->
        fst (ContactRepository.remove_contact contact_id user tbl) = Ok (Some c)
        /\ (forall x, In x tbl' <-> In x tbl /\ x <> c)
        /\ (forall anyone, int32 (User.id anyone) = true ->
              ContactRepository.get_contact_by_id contact_id anyone tbl' = Ok None)
        /\ ContactRepository.remove_contact contact_id user tbl' = (Ok None, tbl'))
     /\ ((forall c, In c tbl -> Contact.id c = contact_id ->
                    Contact.user_id c <> Some (User.id user)) ->
         ContactRepository.remove_contact contact_id user tbl = (Ok None, tbl)))
    /\ (int32 contact_id = false \/ int32 (User.id user) = false ->
        ContactRepository.remove_contact contact_id user tbl = (Raise DBAPIError, tbl)).
Proof.
  intros tbl cid user Hpk tbl'. subst tbl'. split.
  - intros H1 H2. split.
    + intros c Hin Hid Hown. unfold ContactRepository.remove_contact.
      rewrite (get_contact_by_id_owner tbl cid user c H1 H2 Hpk Hin Hid Hown).
      cbn [fst snd].
      assert (Hgone : forall anyone, int32 (User.id anyone) = true ->
                 ContactRepository.get_contact_by_id
                   cid anyone (filter (fun x => negb (Contact.id x =? Contact.id c)) tbl)
                 = Ok None).
      { intros anyone Ha. apply get_contact_by_id_nobody; [exact H1|exact Ha|].
        intros x Hx Hidx.
        apply filter_In in Hx. destruct Hx as [_ Hx]. apply negb_true_iff in Hx.
        apply Z.eqb_neq in Hx. congruence. }
      split; [reflexivity|]. split; [|split; [exact Hgone|]].
      * intros x. rewrite filter_In, negb_true_iff, Z.eqb_neq. split.
        -- intros [Hx Hne]. split; [exact Hx|]. intros ->. apply Hne. reflexivity.
        -- intros [Hx Hne]. split; [exact Hx|]. intros Hidx. apply Hne.
           apply (unique_column_inj Contact.id tbl); assumption.
      * rewrite (Hgone user H2). reflexivity.
    + intros H. unfold ContactRepository.remove_contact.
      rewrite (get_contact_by_id_nobody tbl cid user H1 H2 H). reflexivity.
  - intros H. unfold ContactRepository.remove_contact.
    rewrite (get_contact_by_id_out_of_range tbl cid user H). reflexivity.
Qed.

Lemma remove_contact_owner_only_witness :
  ContactRepository.remove_contact 4 Scenario.alice Samples.book = (Ok None, Samples.book)
  /\ fst (ContactRepository.remove_contact 4 Samples.bob Samples.book)
     = Ok (Some Samples.bea)
  /\ ContactRepository.remove_contact 2147483648 Samples.bob Samples.book
     = (Raise DBAPIError, Samples.book).
Proof.
  destruct (remove_contact_owner_only Samples.book 4 Scenario.alice
                                      samples_book_primary_key) as (Halice & _).
  destruct (Halice eq_refl eq_refl) as (_ & Hother).
  destruct (remove_contact_owner_only Samples.book 4 Samples.bob
                                      samples_book_primary_key) as (Hbob & _).
  destruct (Hbob eq_refl eq_refl) as (Hown & _).
  destruct (remove_contact_owner_only Samples.book 2147483648 Samples.bob
                                      samples_book_primary_key) as (_ & Hbig).
  split; [|split].
  - apply Hother. simpl. intros c [<-|[<-|[<-|[<-|[]]]]]; discriminate.
  - apply (Hown Samples.bea); [simpl; auto|reflexivity|reflexivity].
  - apply Hbig. left. reflexivity.
Defined.

(** A page is drawn from the rows it pages over. *)
Lemma page_In {A : Type} (limit offset : nat) (rows : list A) (x : A) :
  In x (firstn limit (skipn offset rows)) -> In x rows.
Proof.
  intros H.
  assert (Hskip : In x (skipn offset rows)).
  { rewrite <- (firstn_skipn limit (skipn offset rows)). apply in_or_app. left. exact H. }
  rewrite <- (firstn_skipn offset rows). apply in_or_app. right. exact Hskip.
Qed.

(** X19. [get_contacts] returns at most [limit] rows, all of them stored
    contacts of the asking user, and each of them matching every filter that
    was given as a non-empty string; a filter given as the empty string
    selects what no filter selects. *)
Theorem get_contacts_own_rows_only :
  forall (ilike : string -> string -> bool) (user : User.t) (limit offset : nat)
         (first_name last_name email : option string) (tbl : list Contact.t),
    (List.length (ContactRepository.get_contacts
                    ilike user limit offset first_name last_name email tbl)
     <= limit)%nat
    /\ (forall c,
          In c (ContactRepository.get_contacts
                  ilike user limit offset first_name last_name email tbl) ->
          In c tbl
          /\ Contact.user_id c = Some (User.id user)
          /\ (forall s, first_name = Some s -> s <> "" ->
                ilike (Contact.first_name c) ("%" ++ s ++ "%") = true)
          /\ (forall s, last_name = Some s -> s <> "" ->
                ilike (Contact.last_name c) ("%" ++ s ++ "%") = true)
          /\ (forall s, email = Some s -> s <> "" ->
                exists v, Contact.email c = Some v
                          /\ ilike v ("%" ++ s ++ "%") = true))
    /\ ContactRepository.get_contacts ilike user limit offset (Some "") (Some "") (Some "") tbl
       = ContactRepository.get_contacts ilike user limit offset None None None tbl.
Proof.
  intros ilike user limit offset fn ln em tbl. split; [|split].
  - unfold ContactRepository.get_contacts. apply firstn_le_length.
  - intros c Hc. unfold ContactRepository.get_contacts in Hc.
    apply page_In in Hc.
    apply filter_In in Hc. destruct Hc as [Hin Hc].
    rewrite !andb_true_iff in Hc. destruct Hc as [[[Hfn Hln] Hem] Hown].
    split; [exact Hin|]. split; [apply owned_by_true; exact Hown|].
    split; [|split].
    + intros s -> Hs. destruct s as [|a rest]; [contradiction|]. exact Hfn.
    + intros s -> Hs. destruct s as [|a rest]; [contradiction|]. exact Hln.
    + intros s -> Hs. destruct s as [|a rest]; [contradiction|].
      cbn in Hem. destruct (Contact.email c) as [v|]; [|discriminate].
      exists v. auto.
  - reflexivity.
Qed.

Lemma get_contacts_own_rows_only_witness :
  ContactRepository.get_contacts
    Samples.prefix_ilike Scenario.alice 10 0 (Some "A") None None Samples.book
  = [Samples.ann; Samples.abe; Samples.ada]
  /\ Contact.user_id Samples.ada = Some (User.id Scenario.alice).
Proof.
  split; [reflexivity|].
  destruct (get_contacts_own_rows_only
              Samples.prefix_ilike Scenario.alice 10 0 (Some "A") None None
              Samples.book) as (_ & Hrows & _).
  destruct (Hrows Samples.ada) as (_ & Hown & _); [simpl; auto|exact Hown].
Defined.

(** ** Upcoming birthdays *)

Section Birthdays.
Import Contact ContactRepository.
Implicit Types (tbl rows : list Contact.t) (c : Contact.t) (d : date).

Lemma days_in_month_bounds y m : 28 <= days_in_month y m <= 31.
Proof.
  unfold days_in_month.
  destruct (m =? 2); [destruct (is_leap y); lia|].
  destruct ((m =? 4) || (m =? 6) || (m =? 9) || (m =? 11)); lia.
Qed.

Lemma plus_7_days_day d :
  day (plus_7_days d) =
  if day d + 7 <=? days_in_month (year d) (month d)
  then day d + 7
  else day d + 7 - days_in_month (year d) (month d).
Proof.
  unfold plus_7_days.
  destruct (day d + 7 <=? days_in_month (year d) (month d)); [reflexivity|].
  destruct (month d =? 12); reflexivity.
Qed.

Lemma plus_7_days_day_le d : day (plus_7_days d) <= day d + 7.
Proof.
  rewrite plus_7_days_day. pose proof (days_in_month_bounds (year d) (month d)).
  destruct (day d + 7 <=? days_in_month (year d) (month d)); lia.
Qed.

Lemma birthday_where_true user today c :
  birthday_where user today c = true <->
  exists b, birth_date c = Some b
            /\ month b = month today
            /\ day today <= day b <= day (plus_7_days today)
            /\ user_id c = Some (User.id user).
Proof.
  unfold birthday_where. destruct (birth_date c) as [b|].
  - rewrite !andb_true_iff, Z.eqb_eq, !Z.leb_le, owned_by_true. split.
    + intros [[[Hm Hlo] Hhi] Hown]. exists b. auto.
    + intros (b' & [= <-] & Hm & [Hlo Hhi] & Hown). auto.
  - split; [discriminate|]. intros (b & H & _). discriminate.
Qed.

Lemma date_leb_true a b :
  date_leb a b = true <->
  year a < year b
  \/ (year a = year b
      /\ (month a < month b \/ (month a = month b /\ day a <= day b))).
Proof.
  unfold date_leb.
  rewrite orb_true_iff, andb_true_iff, orb_true_iff, andb_true_iff.
  rewrite !Z.ltb_lt, !Z.eqb_eq, Z.leb_le. reflexivity.
Qed.

Lemma date_leb_total a b : date_leb a b = false -> date_leb b a = true.
Proof.
  intros H. apply date_leb_true.
  destruct (date_leb b a) eqn:E; [apply date_leb_true in E; exact E|].
  assert (Ha : ~ (year a < year b
                  \/ (year a = year b
                      /\ (month a < month b \/ (month a = month b /\ day a <= day b)))))
    by (rewrite <- date_leb_true; congruence).
  lia.
Qed.

Lemma date_leb_trans (x y z : date) :
  date_leb x y = true -> date_leb y z = true -> date_leb x z = true.
Proof.
  rewrite !date_leb_true. lia.
Qed.

Lemma born_no_later_total a b : birth_leb a b = false -> born_no_later b a.
Proof.
  unfold born_no_later, birth_leb.
  destruct (birth_date a) as [x|], (birth_date b) as [y|];
    try discriminate; try reflexivity.
  apply date_leb_total.
Qed.

Lemma born_no_later_trans a b c :
  born_no_later a b -> born_no_later b c -> born_no_later a c.
Proof.
  unfold born_no_later, birth_leb.
  destruct (birth_date a) as [x|], (birth_date b) as [y|], (birth_date c) as [z|];
    try discriminate; try reflexivity.
  apply date_leb_trans.
Qed.

Lemma insert_by_birth_date_In c rows x :
  In x (insert_by_birth_date c rows) <-> x = c \/ In x rows.
Proof.
  induction rows as [|y rows IH]; cbn [insert_by_birth_date In].
  - split; intros [H|[]]; auto.
  - destruct (birth_leb c y); cbn [In]; [|rewrite IH]; intuition congruence.
Qed.

Lemma order_by_birth_date_In rows x :
  In x (order_by_birth_date rows) <-> In x rows.
Proof.
  unfold order_by_birth_date. induction rows as [|y rows IH]; cbn [fold_right In].
  - reflexivity.
  - rewrite insert_by_birth_date_In, IH. intuition congruence.
Qed.

Lemma insert_by_birth_date_length c rows :
  List.length (insert_by_birth_date c rows) = S (List.length rows).
Proof.
  induction rows as [|y rows IH]; cbn [insert_by_birth_date]; [reflexivity|].
  destruct (birth_leb c y); cbn [List.length]; [reflexivity|].
  rewrite IH. reflexivity.
Qed.

Lemma order_by_birth_date_length rows :
  List.length (order_by_birth_date rows) = List.length rows.
Proof.
  unfold order_by_birth_date. induction rows as [|y rows IH]; cbn [fold_right];
    [reflexivity|].
  rewrite insert_by_birth_date_length. cbn [List.length]. rewrite IH. reflexivity.
Qed.

Lemma insert_by_birth_date_sorted c rows :
  StronglySorted born_no_later rows ->
  StronglySorted born_no_later (insert_by_birth_date c rows).
Proof.
  induction rows as [|y rows IH]; cbn [insert_by_birth_date]; intros Hs.
  - repeat constructor.
  - apply StronglySorted_inv in Hs. destruct Hs as [Hs Hy].
    destruct (birth_leb c y) eqn:E.
    + constructor; [constructor; assumption|].
      constructor; [exact E|].
      rewrite Forall_forall in *. intros z Hz.
      apply (born_no_later_trans c y z); [exact E|apply Hy; exact Hz].
    + constructor; [apply IH; exact Hs|].
      rewrite Forall_forall in *. intros z Hz.
      apply insert_by_birth_date_In in Hz. destruct Hz as [->|Hz].
      * apply born_no_later_total. exact E.
      * apply Hy. exact Hz.
Qed.

Lemma order_by_birth_date_sorted rows :
  StronglySorted born_no_later (order_by_birth_date rows).
Proof.
  unfold order_by_birth_date. induction rows as [|y rows IH]; cbn [fold_right].
  - constructor.
  - apply insert_by_birth_date_sorted. exact IH.
Qed.

Lemma page_sorted {A : Type} (R : A -> A -> Prop) (limit offset : nat) (rows : list A) :
  StronglySorted R rows -> StronglySorted R (firstn limit (skipn offset rows)).
Proof.
  intros Hs.
  assert (Hskip : StronglySorted R (skipn offset rows)).
  { revert rows Hs. induction offset as [|n IH]; intros rows Hs; [exact Hs|].
    destruct rows as [|x rows]; [constructor|].
    cbn [skipn]. apply IH. apply StronglySorted_inv in Hs. tauto. }
  clear Hs. revert Hskip. generalize (skipn offset rows) as l. clear rows.
  induction limit as [|n IH]; intros l Hs; [constructor|].
  destruct l as [|x l]; [constructor|].
  cbn [firstn]. apply StronglySorted_inv in Hs. destruct Hs as [Hs Hx].
  constructor; [apply IH; exact Hs|].
  rewrite Forall_forall in *. intros y Hy. apply Hx.
  apply (page_In n 0 l y). exact Hy.
Qed.
End Birthdays.

(** X20. In the last seven days of a month the birthday query finds
    nothing.  When the day a week from today falls into the next month, no
    day of the month is both at least today's day and at most that day's, so
    [get_contacts_by_upcoming_birthdays] returns the empty list whatever the
    contacts are, a birthday today or tomorrow included. *)
Theorem upcoming_birthdays_empty_at_month_end :
  forall (user : User.t) (limit offset : nat) (today : date) (tbl : list Contact.t),
    valid_date today ->
    days_in_month (year today) (month today) < day today + 7 ->
    ContactRepository.get_contacts_by_upcoming_birthdays user limit offset today tbl = [].
Proof.
  intros user limit offset today tbl _ Hwrap.
  unfold ContactRepository.get_contacts_by_upcoming_birthdays.
  rewrite filter_none.
  - cbn. destruct offset; destruct limit; reflexivity.
  - intros c _.
    destruct (ContactRepository.birthday_where user today c) eqn:E; [|reflexivity].
    apply birthday_where_true in E. destruct E as (b & _ & _ & [Hlo Hhi] & _).
    rewrite plus_7_days_day in Hhi.
    pose proof (days_in_month_bounds (year today) (month today)) as Hb.
    destruct (day today + 7 <=? days_in_month (year today) (month today)) eqn:El;
      [apply Z.leb_le in El|]; lia.
Qed.

Lemma upcoming_birthdays_empty_at_month_end_witness :
  ContactRepository.get_contacts_by_upcoming_birthdays
    Scenario.alice 10 0 Samples.jan_28 Samples.book = []
  /\ Contact.birth_date Samples.ann = Some (mkDate 1990 1 28).
Proof.
  split; [|reflexivity].
  apply (upcoming_birthdays_empty_at_month_end
           Scenario.alice 10 0 Samples.jan_28 Samples.book).
  - unfold valid_date. vm_compute. intuition discriminate.
  - reflexivity.
Defined.

(** X21. What the birthday query returns.  Every contact returned is a
    stored contact of the asking user whose birth date lies in today's month
    with a day from today's up to seven days on; the list is in ascending
    order of birth date and has at most [limit] entries.  When the day a week
    from today is still in this month, the first page of a limit that covers
    the table contains every such contact. *)
Theorem upcoming_birthdays_within_month :
  forall (user : User.t) (limit offset : nat) (today : date) (tbl : list Contact.t),
    valid_date today ->
    let found :=
      ContactRepository.get_contacts_by_upcoming_birthdays user limit offset today tbl in
    let due c :=
      exists b, Contact.birth_date c = Some b
                /\ month b = month today
                /\ day today <= day b <= day today + 7 in
    (forall c, In c found ->
       In c tbl /\ Contact.user_id c = Some (User.id user) /\ due c)
    /\ StronglySorted ContactRepository.born_no_later found
    /\ (List.length found <= limit)%nat
    /\ (day today + 7 <= days_in_month (year today) (month today) ->
        offset = 0%nat -> (List.length tbl <= limit)%nat ->
        forall c, In c tbl -> Contact.user_id c = Some (User.id user) -> due c ->
                  In c found).
Proof.
  intros user limit offset today tbl _ found due. subst found due.
  unfold ContactRepository.get_contacts_by_upcoming_birthdays.
  split; [|split; [|split]].
  - intros c Hc. apply page_In in Hc.
    apply (proj1 (order_by_birth_date_In _ _)) in Hc.
    apply filter_In in Hc. destruct Hc as [Hin Hc].
    apply birthday_where_true in Hc. destruct Hc as (b & Hb & Hm & [Hlo Hhi] & Hown).
    split; [exact Hin|]. split; [exact Hown|].
    exists b. pose proof (plus_7_days_day_le today). repeat split; auto; lia.
  - apply page_sorted. apply order_by_birth_date_sorted.
  - apply firstn_le_length.
  - intros Hin_month -> Hlimit c Hin Hown (b & Hb & Hm & Hlo & Hhi).
    cbn [skipn]. rewrite firstn_all2.
    + apply (proj2 (order_by_birth_date_In _ _)). apply filter_In. split; [exact Hin|].
      apply birthday_where_true. exists b.
      rewrite plus_7_days_day. apply Z.leb_le in Hin_month. rewrite Hin_month.
      repeat split; auto.
    + rewrite order_by_birth_date_length.
      etransitivity; [apply filter_length_le|exact Hlimit].
Qed.

Lemma upcoming_birthdays_within_month_witness :
  ContactRepository.get_contacts_by_upcoming_birthdays
    Scenario.alice 10 0 Samples.jan_24 Samples.book = [Samples.ada; Samples.ann]
  /\ In Samples.ann
        (ContactRepository.get_contacts_by_upcoming_birthdays
           Scenario.alice 10 0 Samples.jan_24 Samples.book).
Proof.
  split; [reflexivity|].
  destruct (upcoming_birthdays_within_month
              Scenario.alice 10 0 Samples.jan_24 Samples.book)
    as (_ & _ & _ & Hall).
  - unfold valid_date. vm_compute. intuition discriminate.
  - apply Hall.
    + vm_compute. discriminate.
    + reflexivity.
    + simpl. lia.
    + simpl. auto.
    + reflexivity.
    + exists (mkDate 1990 1 28). vm_compute. intuition discriminate.
Defined.

(** The date a week after a date of the calendar is a date of the
    calendar. *)
Lemma plus_7_days_calendar (d : date) :
  valid_date d ->
  1 <= month (plus_7_days d) <= 12
  /\ 1 <= day (plus_7_days d)
          <= days_in_month (year (plus_7_days d)) (month (plus_7_days d)).
Proof.
  intros (Hy & Hm & Hd). unfold plus_7_days.
  pose proof (days_in_month_bounds (year d) (month d)) as Hb.
  destruct (day d + 7 <=? days_in_month (year d) (month d)) eqn:E.
  - apply Z.leb_le in E. cbn [month day year]. lia.
  - apply Z.leb_gt in E. destruct (month d =? 12) eqn:E12; cbn [month day year].
    + pose proof (days_in_month_bounds (year d + 1) 1). lia.
    + apply Z.eqb_neq in E12.
      pose proof (days_in_month_bounds (year d) (month d + 1)). lia.
Qed.

(** X22. The three writes of the user repository never touch the columns
    that identify a user: after [update_password], [confirmed_email] or
    [update_avatar_url], whatever their arguments and outcome, the table
    holds the same ids, user names, addresses and roles in the same order,
    so the uniqueness of [id], [username] and [email] is kept. *)
Theorem user_writes_keep_identity :
  forall (tbl : list User.t),
    let identity u := (User.id u, User.username u, User.email u, User.role u) in
    (forall user digest,
        map identity (snd (UserRepository.update_password user digest tbl))
        = map identity tbl)
    /\ (forall email,
          map identity (snd (UserRepository.confirmed_email email tbl))
          = map identity tbl)
    /\ (forall email url,
          map identity (snd (UserRepository.update_avatar_url email url tbl))
          = map identity tbl)
    /\ (users_primary_key tbl /\ unique_username tbl /\ unique_email tbl ->
        forall email url,
          let tbl' := snd (UserRepository.update_avatar_url email url
                             (snd (UserRepository.confirmed_email email tbl))) in
          users_primary_key tbl' /\ unique_username tbl' /\ unique_email tbl').
Proof.
  intros tbl identity.
  assert (Hassign : forall f user rows,
             (forall u, identity (f u) = identity u) ->
             map identity (assign f user rows) = map identity rows).
  { intros f user rows Hf. unfold assign. rewrite map_map. apply map_ext.
    intros u. destruct (User.id u =? User.id user); [apply Hf|reflexivity]. }
  assert (Hpw : forall user digest rows,
             map identity (snd (UserRepository.update_password user digest rows))
             = map identity rows).
  { intros user digest rows. apply (Hassign (User.set_hash_password digest)). reflexivity. }
  assert (Hce : forall email rows,
             map identity (snd (UserRepository.confirmed_email email rows))
             = map identity rows).
  { intros email rows. unfold UserRepository.confirmed_email.
    destruct (UserRepository.get_user_by_email email rows) as [[user|]|e];
      cbn [snd]; try reflexivity.
    apply (Hassign (User.set_confirmed true)). reflexivity. }
  assert (Hav : forall email url rows,
             map identity (snd (UserRepository.update_avatar_url email url rows))
             = map identity rows).
  { intros email url rows. unfold UserRepository.update_avatar_url.
    destruct (has_nul email); [reflexivity|].
    destruct (UserRepository.get_user_by_email email rows) as [[user|]|e];
      cbn [snd]; try reflexivity.
    destruct (varchar 255 url) as [stored|e]; cbn [snd]; [|reflexivity].
    apply (Hassign (User.set_avatar (Some stored))). reflexivity. }
  split; [intros; apply Hpw|]. split; [intros; apply Hce|]. split; [intros; apply Hav|].
  intros (Hpk & Hun & Hue) email url tbl'.
  assert (Hid : map identity tbl' = map identity tbl).
  { subst tbl'. rewrite Hav. apply Hce. }
  unfold users_primary_key, unique_username, unique_email in *.
  assert (Hcol : forall (g : Z * string * string * UserRole -> string)
                        , map (fun u => g (identity u)) tbl'
                          = map (fun u => g (identity u)) tbl).
  { intros g. rewrite <- !(map_map identity g). rewrite Hid. reflexivity. }
  assert (Hcolz : map (fun u => fst (fst (fst (identity u)))) tbl'
                  = map (fun u => fst (fst (fst (identity u)))) tbl).
  { rewrite <- !(map_map identity (fun p => fst (fst (fst p)))). rewrite Hid.
    reflexivity. }
  split; [|split].
  - change (NoDup (map (fun u => fst (fst (fst (identity u)))) tbl')).
    rewrite Hcolz. exact Hpk.
  - change (NoDup (map (fun u => snd (fst (fst (identity u)))) tbl')).
    rewrite (Hcol (fun p => snd (fst (fst p)))). exact Hun.
  - change (NoDup (map (fun u => snd (fst (identity u))) tbl')).
    rewrite (Hcol (fun p => snd (fst p))). exact Hue.
Qed.

Lemma user_writes_keep_identity_witness :
  unique_email
    (snd (UserRepository.update_avatar_url
            "bob@x.com" "http://cdn/b.png"
            (snd (UserRepository.confirmed_email "bob@x.com" Samples.users_ab)))).
Proof.
  destruct (user_writes_keep_identity Samples.users_ab) as (_ & _ & _ & Hkeep).
  destruct (Hkeep (conj samples_users_primary_key
                        (conj samples_users_unique_username samples_users_unique_email))
                  "bob@x.com" "http://cdn/b.png") as (_ & _ & Hue).
  exact Hue.
Defined.
